(** * Depth measures for functional data (skfda/exploratory/depth.py)

    A shallow embedding of the depth module: the pointwise rank engine
    [_rank_samples], [band_depth], [modified_band_depth], the empirical
    distribution step [_cumulative_distribution] and [fraiman_muniz_depth].

    Numbers.  The Python code works on float64 arrays.  The embedding uses
    exact arithmetic: sampled values, coordinates and depths are rationals
    ([Q], compared with [Qeq]/[Qle]), ranks and counts are integers.  The
    statements below are about ranks and counts, which the floating point
    code computes exactly, about quotients of them, whose bounds rounding
    preserves, and about values up to a tolerance.  No bound is stated on
    the value of the Simpson quadrature of [fraiman_muniz_depth]: rounding
    can move it across a bound that holds exactly. *)

From Stdlib Require Import List ZArith QArith Qabs Lia Lqa Bool Arith.
From Stdlib Require Import Permutation Sorted.
Import ListNotations.

Set Implicit Arguments.

Open Scope nat_scope.

(** ** Exceptions and the error monad *)

(** [InvalidDimension] stands for the [ValueError] raised by the guards of
    depth.py ("Currently multivariate data is not allowed", "Only supported 1
    dimensional arrays.").  [UnpackError] is what a failed tuple unpacking
    would raise. *)
Inductive exn : Type :=
| InvalidDimension
| UnpackError.

Inductive result (A : Type) : Type :=
| Ok (a : A)
| Raise (e : exn).

Arguments Ok {A} a.
Arguments Raise {A} e.

Definition bind {A B : Type} (m : result A) (k : A -> result B) : result B :=
  match m with
  | Ok a => k a
  | Raise e => Raise e
  end.

Notation "x <- m ;; k" := (bind m (fun x => k))
  (at level 61, m at next level, right associativity).

(** ** Array primitives (numpy)

    Arrays are lists in row-major order.  Only what depth.py and the scipy
    routines below use is modelled. *)

Module np.

(** Fancy indexing [a[idx]] with an index array.  An index past the end
    makes numpy raise; it reads the default [d] here, and the callers below
    only pass positions of [a]. *)
Definition take {A : Type} (d : A) (a : list A) (idx : list nat) : list A :=
  map (fun i => nth i a d) idx.

(** In-place item assignment [a[i] = v]. *)
Fixpoint upd {A : Type} (i : nat) (v : A) (a : list A) : list A :=
  match a, i with
  | [], _ => []
  | _ :: r, O => v :: r
  | x :: r, S j => x :: upd j v r
  end.

(** Scattered assignment [a[idx] = vals]: later writes win. *)
Definition scatter {A : Type} (idx : list nat) (vals : list A)
    (a : list A) : list A :=
  fold_left (fun acc iv => upd (fst iv) (snd iv) acc) (combine idx vals) a.

(** [np.cumsum] of a boolean array (True counts 1), from a running total. *)
Fixpoint cumsum_bool_from (acc : nat) (bs : list bool) : list nat :=
  match bs with
  | [] => []
  | b :: r =>
      let acc' := (if b then S acc else acc) in acc' :: cumsum_bool_from acc' r
  end.

Definition cumsum_bool (bs : list bool) : list nat := cumsum_bool_from 0 bs.

(** [np.cumsum] of an integer array. *)
Fixpoint cumsum_from (acc : Z) (l : list Z) : list Z :=
  match l with
  | [] => []
  | c :: r => (acc + c)%Z :: cumsum_from (acc + c)%Z r
  end.

Definition cumsum (l : list Z) : list Z := cumsum_from 0%Z l.

(** [np.nonzero(bs)[0]]: the positions holding True; [k] is the position of
    the head of [bs]. *)
Fixpoint nonzero_from (k : nat) (bs : list bool) : list nat :=
  match bs with
  | [] => []
  | b :: r =>
      if b then k :: nonzero_from (S k) r else nonzero_from (S k) r
  end.

Definition nonzero (bs : list bool) : list nat := nonzero_from 0 bs.

(** [np.diff]: consecutive differences [a[1:] - a[:-1]]. *)
Definition diff_int (a : list Z) : list Z :=
  map (fun p => (fst p - snd p)%Z) (combine (tl a) a).

Definition diff (a : list Q) : list Q :=
  map (fun p => (fst p - snd p)%Q) (combine (tl a) a).

(** Boolean mask selection [a[mask]]. *)
Fixpoint select {A : Type} (a : list A) (mask : list bool) : list A :=
  match a, mask with
  | x :: r, b :: m => if b then x :: select r m else select r m
  | _, _ => []
  end.

(** [a[1:] != a[:-1]], elementwise. *)
Definition adjacent_neq (a : list Q) : list bool :=
  map (fun p => negb (Qeq_bool (fst p) (snd p))) (combine (tl a) a).

(** Insertion of an (value, position) pair into a list sorted by value. *)
Fixpoint insert_by (x : Q * nat) (l : list (Q * nat)) : list (Q * nat) :=
  match l with
  | [] => [x]
  | y :: r =>
      if Qle_bool (fst x) (fst y) then x :: l else y :: insert_by x r
  end.

Definition sort_pairs (l : list (Q * nat)) : list (Q * nat) :=
  fold_right insert_by [] l.

(** [np.argsort]: the positions of [a] listed by increasing value.  The
    order among equal values is left open by numpy's quicksort; the callers
    below do not depend on it. *)
Definition argsort (a : list Q) : list nat :=
  map snd (sort_pairs (combine a (seq 0 (length a)))).

(** [np.unique(ar, return_inverse=True, return_counts=True)]: the sorted
    distinct values, for each entry of [ar] the position of its value among
    them, and the number of occurrences of each distinct value. *)
Definition unique_inverse_counts (ar : list Q)
    : list Q * list nat * list Z :=
  let perm := argsort ar in
  let aux := take 0%Q ar perm in
  let mask := match aux with
              | [] => []
              | _ :: _ => true :: adjacent_neq aux
              end in
  let imask := map (fun c => c - 1) (cumsum_bool mask) in
  let inv_idx := scatter perm imask (repeat 0 (length mask)) in
  let idx := map Z.of_nat (nonzero mask ++ [length mask]) in
  (select aux mask, inv_idx, diff_int idx).

(** Python indexing [l[i]] with a possibly negative index (0 where Python
    raises an IndexError). *)
Definition item (l : list Q) (i : Z) : Q :=
  nth (Z.to_nat (if (i <? 0)%Z then i + Z.of_nat (length l) else i)%Z) l 0%Q.

(** Bound normalisation of a slice: negative bounds count from the end and
    everything is clipped to [0, len]. *)
Definition clip (i len : Z) : Z :=
  (if i <? 0 then Z.max (i + len) 0 else Z.min i len)%Z.

Fixpoint stride2 {A : Type} (l : list A) : list A :=
  match l with
  | [] => []
  | [x] => [x]
  | x :: _ :: r => x :: stride2 r
  end.

(** The slice [l[start:stop:2]]. *)
Definition slice2 {A : Type} (start stop : Z) (l : list A) : list A :=
  let len := Z.of_nat (length l) in
  let lo := Z.to_nat (clip start len) in
  let hi := Z.to_nat (clip stop len) in
  stride2 (firstn (hi - lo) (skipn lo l)).

Definition sum (l : list Q) : Q := fold_left Qplus l 0%Q.

Definition sumZ (l : list Z) : Z := fold_left Z.add l 0%Z.

(** [np.amax] and [np.amin] of a non-empty integer row (numpy raises on an
    empty one; the head-less case returns 0 here). *)
Definition amax (l : list Z) : Z :=
  match l with
  | [] => 0%Z
  | x :: r => fold_left Z.max r x
  end.

Definition amin (l : list Z) : Z :=
  match l with
  | [] => 0%Z
  | x :: r => fold_left Z.min r x
  end.

(** Transpose of a two-dimensional array given as rows of length [ncols]. *)
Definition transpose (rows : list (list Q)) (ncols : nat) : list (list Q) :=
  map (fun j => map (fun r => nth j r 0%Q) rows) (seq 0 ncols).

End np.

(** ** scipy routines used by the module

    [rankdata] and [simps] belong to scipy, not to this repository; they are
    transcribed from the implementation of the scipy releases the module was
    written for, whose outputs the docstrings of depth.py record. *)

Module scipy.

(** [scipy.stats.rankdata(a, method='max')], following its implementation:
    sort, mark the first entry of every run of equal values, and look the
    dense rank of each entry up in the table of run boundaries. *)
Definition rankdata_max (a : list Q) : list Z :=
  let sorter := np.argsort a in
  let inv := np.scatter sorter (seq 0 (length sorter))
               (repeat 0 (length sorter)) in
  let arr := np.take 0%Q a sorter in
  let obs := true :: np.adjacent_neq arr in
  let dense := np.take 0 (np.cumsum_bool obs) inv in
  let count := np.nonzero obs ++ [length obs] in
  map Z.of_nat (np.take 0 count dense).

(** [_basic_simps(y, start, stop, x, dx, axis)] with [x] given: Simpson's
    rule on consecutive pairs of intervals of possibly different widths. *)
Definition panel (h0 h1 y0 y1 y2 : Q) : Q :=
  (let hsum := h0 + h1 in
   let hprod := h0 * h1 in
   let h0divh1 := h0 / h1 in
   hsum / 6 * (y0 * (2 - 1 / h0divh1)
               + y1 * hsum * hsum / hprod
               + y2 * (2 - h0divh1)))%Q.

Definition basic_simps (y : list Q) (start stop : Z) (x : list Q) : Q :=
  let h := np.diff x in
  let h0 := np.slice2 start stop h in
  let h1 := np.slice2 (start + 1)%Z (stop + 1)%Z h in
  let y0 := np.slice2 start stop y in
  let y1 := np.slice2 (start + 1)%Z (stop + 1)%Z y in
  let y2 := np.slice2 (start + 2)%Z (stop + 2)%Z y in
  np.sum (map (fun t =>
                 match t with
                 | (a, (b, (c, (d, e)))) => panel a b c d e
                 end)
              (combine h0 (combine h1 (combine y0 (combine y1 y2))))).

(** [scipy.integrate.simps(y, x)] along the last axis, [even='avg']: with an
    even number of samples the rule is applied to the first and to the last
    N-2 intervals, each completed by a trapezoid, and the two are
    averaged. *)
Definition simps (y x : list Q) : Q :=
  let N := Z.of_nat (length y) in
  if Z.even N then
    let last_dx := (np.item x (-1) - np.item x (-2))%Q in
    let val1 := ((1 # 2) * last_dx * (np.item y (-1) + np.item y (-2)))%Q in
    let result1 := basic_simps y 0 (N - 3)%Z x in
    let first_dx := (np.item x 1 - np.item x 0)%Q in
    let val2 :=
      (val1 + (1 # 2) * first_dx * (np.item y 1 + np.item y 0))%Q in
    let result2 := (result1 + basic_simps y 1 (N - 2)%Z x)%Q in
    (result2 / 2 + val2 / 2)%Q
  else
    basic_simps y 0 (N - 2)%Z x.

End scipy.

(** ** The functional data grid *)

(** A numpy array: its shape and its entries in row-major order. *)
Record ndarray : Type := mk_ndarray {
  shape : list nat;
  data : list Q
}.

(** Modelled from the spec: the grid type [FDataGrid] is declared outside
    depth.py.  It supplies the per-axis ordered coordinates
    ([sample_points]), the domain bounds per axis ([domain_range]) and the
    sampled values ([data_matrix], of shape samples x grid-shape x
    image-dim).  The grid axes of [data_matrix] are flattened in row-major
    order: [data_matrix] lists, for every sample, for every grid point, the
    image vector observed there. *)
Record FDataGrid : Type := mk_FDataGrid {
  data_matrix : list (list (list Q));
  sample_points : list (list Q);
  domain_range : list (Q * Q)
}.

Definition nsamples (fd : FDataGrid) : nat := length (data_matrix fd).

Definition ndim_domain (fd : FDataGrid) : nat := length (sample_points fd).

(** [data_matrix.shape[-1]]. *)
Definition ndim_image (fd : FDataGrid) : nat :=
  length (hd [] (hd [] (data_matrix fd))).

(** The product of the per-axis coordinate counts. *)
Definition grid_size (fd : FDataGrid) : nat :=
  fold_left (fun x y => x * length y) (sample_points fd) 1.

Definition Qlt_bool (a b : Q) : bool := negb (Qle_bool b a).

Definition increasing (ax : list Q) : bool :=
  forallb (fun p => Qlt_bool (snd p) (fst p)) (combine (tl ax) ax).

(** The invariants of a grid: at least one sample, one domain axis and one
    image component; every axis non-empty and strictly increasing; the same
    grid shape for all samples; one pair of bounds per axis. *)
Definition grid_wf (fd : FDataGrid) : bool :=
  (1 <=? nsamples fd) && (1 <=? ndim_domain fd) && (1 <=? ndim_image fd)
  && forallb (fun ax => (1 <=? length ax) && increasing ax) (sample_points fd)
  && forallb (fun s => (length s =? grid_size fd)
                       && forallb (fun v => length v =? ndim_image fd) s)
       (data_matrix fd)
  && (length (domain_range fd) =? ndim_domain fd).

(** ** skfda/exploratory/depth.py *)

(** What a depth function returns: the depth array alone, or the pair of the
    depth array and the pointwise depth array. *)
Inductive depth_output : Type :=
| Depth (depth : list Q)
| DepthPointwise (depth : list Q) (depth_pointwise : list (list Q)).

Definition zip_with {A B C : Type} (f : A -> B -> C) (a : list A)
    (b : list B) : list C :=
  map (fun p => f (fst p) (snd p)) (combine a b).

Fixpoint mapM {A B : Type} (f : A -> result B) (l : list A)
    : result (list B) :=
  match l with
  | [] => Ok []
  | x :: r => y <- f x ;; ys <- mapM f r ;; Ok (y :: ys)
  end.

(** [fdatagrid.data_matrix[:, index, 0]]: the values of all samples at the
    grid point [index]. *)
Definition column (fd : FDataGrid) (index : nat) : list Q :=
  map (fun s => nth 0 (nth index s []) 0%Q) (data_matrix fd).

(** [ranks[:, index] = col]. *)
Definition set_column (index : nat) (col : list Z) (ranks : list (list Z))
    : list (list Z) :=
  zip_with (fun row v => np.upd index v row) ranks col.

Definition _rank_samples (fd : FDataGrid) : result (list (list Z)) :=
  if 1 <? ndim_image fd then Raise InvalidDimension
  else
    let ranks :=
      repeat (repeat 0%Z (length (hd [] (data_matrix fd)))) (nsamples fd) in
    Ok (fold_left
          (fun ranks index =>
             set_column index (scipy.rankdata_max (column fd index)) ranks)
          (seq 0 (length (hd [] ranks))) ranks).

Definition modified_band_depth (fd : FDataGrid) (pointwise : bool)
    : result depth_output :=
  let n := Z.of_nat (nsamples fd) in
  let nchoose2 := (inject_Z (n * (n - 1)) / 2)%Q in
  ranks <- _rank_samples fd ;;
  let nsamples_above := map (map (fun r => (n - r)%Z)) ranks in
  let nsamples_below := map (map (fun r => (r - 1)%Z)) ranks in
  let match_ := zip_with (zip_with Z.mul) nsamples_above nsamples_below in
  let npoints_sample :=
    fold_left (fun x y => x * length y) (sample_points fd) 1 in
  let proportion :=
    map (fun row =>
           (inject_Z (np.sumZ row) / inject_Z (Z.of_nat npoints_sample))%Q)
        match_ in
  let depth :=
    map (fun p => ((p + inject_Z n - 1) / nchoose2)%Q) proportion in
  if pointwise then
    let depth_pointwise :=
      map (map (fun m => ((inject_Z m + inject_Z n - 1) / nchoose2)%Q))
        match_ in
    Ok (DepthPointwise depth depth_pointwise)
  else Ok (Depth depth).

Definition band_depth (fd : FDataGrid) (pointwise : bool)
    : result depth_output :=
  let n := Z.of_nat (nsamples fd) in
  let nchoose2 := (inject_Z (n * (n - 1)) / 2)%Q in
  ranks <- _rank_samples fd ;;
  let nsamples_above := map (fun row => (n - np.amax row)%Z) ranks in
  let nsamples_below := map (fun row => (np.amin row - 1)%Z) ranks in
  let depth :=
    zip_with (fun below above =>
                ((inject_Z (below * above) + inject_Z n - 1) / nchoose2)%Q)
      nsamples_below nsamples_above in
  if pointwise then
    r <- modified_band_depth fd pointwise ;;
    match r with
    | DepthPointwise _ depth_pointwise =>
        Ok (DepthPointwise depth depth_pointwise)
    | Depth _ => Raise UnpackError
    end
  else Ok (Depth depth).

Definition _cumulative_distribution (column : ndarray) : result ndarray :=
  if negb (length (shape column) =? 1) then Raise InvalidDimension
  else
    let '(_, indexes, counts) := np.unique_inverse_counts (data column) in
    let count_cumulative :=
      map (fun c => (inject_Z c
                     / inject_Z (Z.of_nat (hd 0%nat (shape column))))%Q)
          (np.cumsum counts) in
    Ok (mk_ndarray (shape column) (np.take 0%Q count_cumulative indexes)).

Definition fraiman_muniz_depth (fd : FDataGrid) (pointwise : bool)
    : result depth_output :=
  if (1 <? ndim_domain fd) || (1 <? ndim_image fd) then Raise InvalidDimension
  else
    rows <- mapM (fun i =>
                    F <- _cumulative_distribution
                           (mk_ndarray [nsamples fd] (column fd i)) ;;
                    Ok (map (fun v => (1 - Qabs ((1 # 2) - v))%Q) (data F)))
                 (seq 0 (length (nth 0 (sample_points fd) []))) ;;
    let pointwise_depth := np.transpose rows (nsamples fd) in
    let interval_len :=
      (snd (nth 0%nat (domain_range fd) (0, 0)) -
       fst (nth 0%nat (domain_range fd) (0, 0)))%Q in
    let depth :=
      map (fun y =>
             (scipy.simps y (nth 0%nat (sample_points fd) []) / interval_len)%Q)
          pointwise_depth in
    if pointwise then Ok (DepthPointwise depth pointwise_depth)
    else Ok (Depth depth).

(** ** Reference data *)

(** The four curves of the docstrings, sampled at 0, 2, 4, 6, 8, 10. *)
Definition reference_grid : FDataGrid :=
  mk_FDataGrid
    (map (map (fun v => [v]))
       [[1; 1; 2; 3; 5 # 2; 2];
        [1 # 2; 1 # 2; 1; 2; 3 # 2; 1];
        [-(1); -(1); -(1 # 2); 1; 1; 1 # 2];
        [-(1 # 2); -(1 # 2); -(1 # 2); -(1); -(1); -(1)]])%Q
    [[0; 2; 4; 6; 8; 10]]%Q
    [(0, 10)]%Q.

(** The two surfaces of the docstring of [_rank_samples], sampled on the
    grid [2, 4] x [3, 6, 8] (rows flattened). *)
Definition surface_grid : FDataGrid :=
  mk_FDataGrid
    (map (map (fun v => [v]))
       [[1; 7 # 10; 1; 4; 4 # 10; 5];
        [2; 5 # 10; 2; 3; 6 # 10; 3]])%Q
    [[2; 4]; [3; 6; 8]]%Q
    [(2, 4); (3, 8)]%Q.

(** Two curves on the unevenly spaced coordinates 0, 1, 4: the first lies
    below the second at 0 and above it at 1 and 4. *)
Definition skewed_grid : FDataGrid :=
  mk_FDataGrid
    [[[0]; [1]; [1]]; [[1]; [0]; [0]]]%Q
    [[0; 1; 4]]%Q
    [(0, 4)]%Q.

(** Three identical curves sampled at 0 and 1. *)
Definition identical_grid : FDataGrid :=
  mk_FDataGrid
    [[[0]; [0]]; [[0]; [0]]; [[0]; [0]]]%Q
    [[0; 1]]%Q
    [(0, 1)]%Q.

(** ** Specification-side notions *)

(** The number of entries of [l] that are less than or equal to [x]. *)
Definition count_le (x : Q) (l : list Q) : nat :=
  length (filter (fun y => Qle_bool y x) l).


(** The value of sample [i] at the grid point [t]. *)
Definition value (fd : FDataGrid) (i t : nat) : Q :=
  nth 0 (nth t (nth i (data_matrix fd) []) []) 0%Q.

(** Competition ranking with ties taking the largest rank of their group:
    the rank of sample [i] at the grid point [t] is the number of samples
    whose value at [t] is at most its own; it lies between 1 and the number
    of samples, and a sample holding the top value at [t] has the rank
    [nsamples]. *)
Definition max_competition_ranks (fd : FDataGrid) (ranks : list (list Z))
    : Prop :=
  forall i t, i < nsamples fd -> t < grid_size fd ->
    let r := nth t (nth i ranks []) 0%Z in
    r = Z.of_nat (count_le (value fd i t) (column fd t))
    /\ (1 <= r <= Z.of_nat (nsamples fd))%Z
    /\ ((forall j, j < nsamples fd -> (value fd j t <= value fd i t)%Q) ->
        r = Z.of_nat (nsamples fd)).

(** The empirical distribution of [x] evaluated at its own entries:
    [out] holds, per entry, the proportion of the entries of [x] that are at
    most that entry, and equal entries share their proportion. *)
Definition empirical_proportions (x out : list Q) : Prop :=
  length out = length x
  /\ (forall i, i < length x ->
        nth i out 0%Q
        = (inject_Z (Z.of_nat (count_le (nth i x 0%Q) x))
           / inject_Z (Z.of_nat (length x)))%Q)
  /\ (forall i j, i < length x -> j < length x ->
        (nth i x 0 == nth j x 0)%Q -> nth i out 0%Q = nth j out 0%Q).

(** The first component of what a depth function returns. *)
Definition depth_values (o : depth_output) : list Q :=
  match o with
  | Depth d => d
  | DepthPointwise d _ => d
  end.

(** Per-sample closed forms of the two band depths, from the ranks of one
    sample; [n] is the number of samples and [P] the number of grid
    points. *)
Definition nchoose2 (n : Z) : Q := (inject_Z (n * (n - 1)) / 2)%Q.

Definition band_depth_row (n : Z) (row : list Z) : Q :=
  ((inject_Z ((np.amin row - 1) * (n - np.amax row)) + inject_Z n - 1)
   / nchoose2 n)%Q.

Definition match_row (n : Z) (row : list Z) : list Z :=
  map (fun r => ((n - r) * (r - 1))%Z) row.

Definition modified_band_depth_row (n : Z) (P : nat) (row : list Z) : Q :=
  ((inject_Z (np.sumZ (match_row n row)) / inject_Z (Z.of_nat P)
    + inject_Z n - 1) / nchoose2 n)%Q.

Definition pointwise_row (n : Z) (row : list Z) : list Q :=
  map (fun m => ((inject_Z m + inject_Z n - 1) / nchoose2 n)%Q)
      (match_row n row).

(** Reordering of the samples of a grid: sample [k] of the result is the
    sample [perm[k]] of [fd] (the grid indexed by an index array). *)
Definition permute_samples (perm : list nat) (fd : FDataGrid) : FDataGrid :=
  mk_FDataGrid (np.take [] (data_matrix fd) perm) (sample_points fd)
    (domain_range fd).

(** [perm] lists every sample position below [n] exactly once. *)
Definition is_permutation (perm : list nat) (n : nat) : bool :=
  (length perm =? n)
  && forallb (fun i => existsb (Nat.eqb i) perm) (seq 0 n).

(** An operation raises [InvalidDimension] when its precondition is
    violated and returns a value otherwise. *)
Definition raises_exactly_when {A : Type} (r : result A) (violated : Prop)
    : Prop :=
  (r = Raise InvalidDimension <-> violated)
  /\ (~ violated -> exists v, r = Ok v).

(** The Fraiman-Muniz depth of a value at a grid point, from the empirical
    distribution of the column it belongs to. *)
Definition univariate_depth (v : Q) (col : list Q) : Q :=
  (1 - Qabs ((1 # 2)
             - inject_Z (Z.of_nat (count_le v col))
               / inject_Z (Z.of_nat (length col))))%Q.

(** Every depth value of the output [o] lies between [lo] and [hi]. *)
Definition depths_within (lo hi : Q) (o : result depth_output) : Prop :=
  exists out,
    o = Ok out /\ Forall (fun v => (lo <= v <= hi)%Q) (depth_values out).

(** The output [o] carries one depth per sample and a pointwise array of
    [nrows] rows of [ncols] entries, every entry between [lo] and [hi]. *)
Definition pointwise_depths_within (lo hi : Q) (nrows ncols : nat)
    (o : result depth_output) : Prop :=
  exists depth pw,
    o = Ok (DepthPointwise depth pw)
    /\ length depth = nrows /\ length pw = nrows
    /\ Forall (fun row =>
                 length row = ncols
                 /\ Forall (fun v => (lo <= v <= hi)%Q) row) pw.

(** The entries of [a] and [b] agree pairwise up to [tol]. *)
Definition close_to (tol : Q) (a b : list Q) : Prop :=
  Forall2 (fun u v => (Qabs (u - v) <= tol)%Q) a b.

(** Position of the first True of a boolean array (its length if none). *)
Fixpoint find_true (bs : list bool) : nat :=
  match bs with
  | [] => 0
  | true :: _ => 0
  | false :: r => S (find_true r)
  end.

(** ** Further notions *)

(** Sample [i] holds the largest value (ties allowed) at every grid
    point. *)
Definition upper_envelope (fd : FDataGrid) (i : nat) : bool :=
  forallb (fun t =>
             forallb (fun v => Qle_bool v (value fd i t)) (column fd t))
    (seq 0 (grid_size fd)).

(** Sample [i] lies strictly below every other sample at every grid
    point. *)
Definition strict_lower_envelope (fd : FDataGrid) (i : nat) : bool :=
  forallb (fun t =>
             forallb (fun j =>
                        (j =? i)
                        || Qlt_bool (value fd i t) (value fd j t))
               (seq 0 (nsamples fd)))
    (seq 0 (grid_size fd)).

(** The grid whose sampled values are the images by [f] of those of
    [fd]. *)
Definition map_values (f : Q -> Q) (fd : FDataGrid) : FDataGrid :=
  mk_FDataGrid (map (map (map f)) (data_matrix fd)) (sample_points fd)
    (domain_range fd).

(** [out] reads a distribution function at the entries of [x]: it does
    not decrease with the entry, lies between [1 / n] and 1, and is 1 at a
    largest entry. *)
Definition distribution_function (x out : list Q) : Prop :=
  (forall i j, i < length x -> j < length x ->
     (nth i x 0 <= nth j x 0)%Q -> (nth i out 0 <= nth j out 0)%Q)
  /\ Forall (fun v => (1 / inject_Z (Z.of_nat (length x)) <= v <= 1)%Q) out
  /\ (forall i, i < length x ->
        (forall j, j < length x -> (nth j x 0 <= nth i x 0)%Q) ->
        (nth i out 0 == 1)%Q).

(** The pointwise Fraiman-Muniz array [pw] of the grid [fd]: one row of
    [grid_size fd] entries per sample; the entry of sample [i] at the point
    [t] is the univariate depth of its value in the column of [t], a number
    of [1/2, 1] that is 1/2 where the sample holds the largest value. *)
Definition pointwise_univariate (fd : FDataGrid) (pw : list (list Q))
    : Prop :=
  length pw = nsamples fd
  /\ forall i t, i < nsamples fd -> t < grid_size fd ->
       length (nth i pw []) = grid_size fd
       /\ nth t (nth i pw []) 0%Q
          = univariate_depth (value fd i t) (column fd t)
       /\ ((1 # 2) <= nth t (nth i pw []) 0 <= 1)%Q
       /\ ((forall j, j < nsamples fd ->
              (value fd j t <= value fd i t)%Q) ->
           (nth t (nth i pw []) 0 == 1 # 2)%Q).

(** The pointwise band depth array [pw] of the grid [fd]: one row of
    [grid_size fd] entries per sample; the entry of sample [i] at the point
    [t] is [((n - r) * (r - 1) + n - 1) / C(n, 2)], [r] being the number of
    samples at or below the sample there, a number of [2 / n, 1]. *)
Definition pointwise_band (fd : FDataGrid) (pw : list (list Q)) : Prop :=
  length pw = nsamples fd
  /\ forall i t, i < nsamples fd -> t < grid_size fd ->
       let n := Z.of_nat (nsamples fd) in
       let r := Z.of_nat (count_le (value fd i t) (column fd t)) in
       length (nth i pw []) = grid_size fd
       /\ nth t (nth i pw []) 0%Q
          = ((inject_Z ((n - r) * (r - 1)) + inject_Z n - 1) / nchoose2 n)%Q
       /\ (2 / inject_Z n <= nth t (nth i pw []) 0 <= 1)%Q.

(** The number of samples at or below sample [i] is the same at every grid
    point: its curve crosses no other. *)
Definition constant_rank (fd : FDataGrid) (i : nat) : bool :=
  forallb (fun t =>
             count_le (value fd i t) (column fd t)
             =? count_le (value fd i 0) (column fd 0))
    (seq 0 (grid_size fd)).

(** ** skfda/ml/regression/_coefficients.py *)

(** The exceptions [coefficient_info_from_covariate] ends with. *)
Inductive exception : Type :=
| ValueError
| TypeError
| IndexError.

Inductive outcome (A : Type) : Type :=
| Returns (a : A)
| Raises (e : exception).

Arguments Returns {A} a.
Arguments Raises {A} e.

(** What the module imports from [representation.basis], which is not part
    of the files at hand: the classes [Basis] and [FDataBasis], the
    attribute [FDataBasis.basis] and the method [Basis.to_basis()]. *)
Class BasisModule : Type := {
  Basis : Type;
  FDataBasis : Type;
  fdatabasis_basis : FDataBasis -> Basis;
  to_basis : Basis -> FDataBasis
}.

Section Coefficients.

Context {representation_basis : BasisModule}.

(** A Python value, by its class: [None], a numpy array, an [FDataBasis],
    a [Basis], or an object of any other class. *)
Inductive pyvalue : Type :=
| PyNone
| PyNdarray (a : ndarray)
| PyFDataBasis (f : FDataBasis)
| PyBasis (b : Basis)
| PyObject.

(** The two concrete [CoefficientInfo] classes, with the attributes
    [basis] and [y_basis] set by [__init__]. *)
Inductive CoefficientInfo : Type :=
| CoefficientInfoNdarray (basis y_basis : pyvalue)
| CoefficientInfoFDataBasis (basis y_basis : pyvalue).

(** [np.identity(k)]. *)
Definition identity (k : nat) : ndarray :=
  mk_ndarray [k; k]
    (flat_map (fun i => map (fun j => if i =? j then 1%Q else 0%Q) (seq 0 k))
       (seq 0 k)).

(** [np.atleast_2d]. *)
Definition atleast_2d (a : ndarray) : ndarray :=
  match shape a with
  | [] => mk_ndarray [1; 1] (data a)
  | [n] => mk_ndarray [1; n] (data a)
  | _ => a
  end.

(** [CoefficientInfoNdarray.regression_matrix]. *)
Definition regression_matrix_ndarray (X : ndarray) : ndarray :=
  atleast_2d X.

Definition _coefficient_info_from_covariate_ndarray (X : ndarray)
    (y : pyvalue) (basis : pyvalue) : outcome CoefficientInfo :=
  let y_basis := PyNone in
  match y with
  | PyFDataBasis yf =>
      let basis :=
        match basis with
        | PyNone => PyBasis (fdatabasis_basis yf)
        | _ => basis
        end in
      let y_basis := PyFDataBasis (to_basis (fdatabasis_basis yf)) in
      match basis with
      | PyBasis b =>
          Returns (CoefficientInfoNdarray (PyFDataBasis (to_basis b)) y_basis)
      | _ => Raises TypeError
      end
  | _ =>
      match shape X with
      | _ :: k :: _ =>
          Returns (CoefficientInfoNdarray (PyNdarray (identity k)) y_basis)
      | _ => Raises IndexError
      end
  end.

Definition _coefficient_info_from_covariate_fdatabasis (X : FDataBasis)
    (y : pyvalue) (basis : pyvalue) : outcome CoefficientInfo :=
  let basis :=
    match basis with
    | PyNone => PyBasis (fdatabasis_basis X)
    | _ => basis
    end in
  match basis with
  | PyBasis b => Returns (CoefficientInfoFDataBasis
                            (PyFDataBasis (to_basis b)) PyNone)
  | _ => Raises TypeError
  end.

(** The generic function, dispatching on the class of [X].  [basis] is the
    keyword argument when it is given: the array implementation defaults it
    to [None], the [FDataBasis] one requires it (Python raises a
    [TypeError] for a missing keyword-only argument). *)
Definition coefficient_info_from_covariate (X y : pyvalue)
    (basis : option pyvalue) : outcome CoefficientInfo :=
  match X with
  | PyNdarray a =>
      _coefficient_info_from_covariate_ndarray a y
        (match basis with Some b => b | None => PyNone end)
  | PyFDataBasis f =>
      match basis with
      | Some b => _coefficient_info_from_covariate_fdatabasis f y b
      | None => Raises TypeError
      end
  | _ => Raises ValueError
  end.

(** The [basis] argument is given and is neither [None] nor a [Basis]. *)
Definition not_a_basis (basis : option pyvalue) : bool :=
  match basis with
  | None | Some PyNone | Some (PyBasis _) => false
  | Some _ => true
  end.

Definition is_ndarray (v : pyvalue) : bool :=
  match v with PyNdarray _ => true | _ => false end.

Definition is_fdatabasis (v : pyvalue) : bool :=
  match v with PyFDataBasis _ => true | _ => false end.

(** [X.ndim], 0 for a value that is not an array. *)
Definition ndim (v : pyvalue) : nat :=
  match v with PyNdarray a => length (shape a) | _ => 0 end.

End Coefficients.

(** An instance to run the module on: a basis is named by a number and a
    functional datum is a basis with a row of coefficients. *)
Definition plain_basis_module : BasisModule :=
  {| Basis := nat;
     FDataBasis := nat * list Q;
     fdatabasis_basis := fst;
     to_basis := fun b => (b, []) |}.

(** * Properties *)

(** ** Sorting *)

Section Sorting.

Let le_fst (p q : Q * nat) : Prop := (fst p <= fst q)%Q.

Lemma insert_by_perm x l : Permutation (np.insert_by x l) (x :: l).
Proof.
  induction l as [|y r IH]; simpl; [reflexivity|].
  destruct (Qle_bool (fst x) (fst y)); [reflexivity|].
  rewrite IH. apply perm_swap.
Qed.

Lemma sort_pairs_perm l : Permutation (np.sort_pairs l) l.
Proof.
  induction l as [|x r IH]; simpl; [reflexivity|].
  rewrite insert_by_perm. now constructor.
Qed.

Lemma insert_by_sorted x l :
  StronglySorted le_fst l -> StronglySorted le_fst (np.insert_by x l).
Proof.
  induction 1 as [|y r Hs IH Hy]; simpl.
  - repeat constructor.
  - destruct (Qle_bool (fst x) (fst y)) eqn:E.
    + apply Qle_bool_iff in E.
      constructor; [now constructor|].
      constructor; [exact E|].
      eapply Forall_impl; [|exact Hy].
      intros z Hz. unfold le_fst in *. eapply Qle_trans; eauto.
    + assert (Hyx : (fst y <= fst x)%Q).
      { apply Qlt_le_weak, Qnot_le_lt. intro H.
        apply Qle_bool_iff in H. congruence. }
      constructor; [exact IH|].
      eapply Permutation_Forall; [symmetry; apply insert_by_perm|].
      now constructor.
Qed.

Lemma sort_pairs_sorted l : StronglySorted le_fst (np.sort_pairs l).
Proof.
  induction l as [|x r IH]; simpl; [constructor|].
  now apply insert_by_sorted.
Qed.

Lemma map_snd_combine_seq (a : list Q) k :
  map snd (combine a (seq k (length a))) = seq k (length a).
Proof.
  revert k. induction a as [|x r IH]; intro k; simpl; [reflexivity|].
  now rewrite IH.
Qed.

Lemma map_fst_combine_seq (a : list Q) k :
  map fst (combine a (seq k (length a))) = a.
Proof.
  revert k. induction a as [|x r IH]; intro k; simpl; [reflexivity|].
  now rewrite IH.
Qed.

Lemma combine_seq_nth (a : list Q) :
  Forall (fun p => nth (snd p) a 0%Q = fst p)
    (combine a (seq 0 (length a))).
Proof.
  apply Forall_forall. intros [v i] Hin.
  destruct (In_nth _ _ (0%Q, 0) Hin) as [k [Hk Hnth]].
  rewrite length_combine, length_seq, Nat.min_id in Hk.
  rewrite combine_nth in Hnth by now rewrite length_seq.
  rewrite seq_nth in Hnth by assumption.
  simpl in Hnth. now inversion Hnth.
Qed.

Lemma argsort_perm a : Permutation (np.argsort a) (seq 0 (length a)).
Proof.
  unfold np.argsort.
  transitivity (map snd (combine a (seq 0 (length a)))).
  - apply Permutation_map, sort_pairs_perm.
  - now rewrite map_snd_combine_seq.
Qed.

Lemma argsort_length a : length (np.argsort a) = length a.
Proof.
  rewrite (Permutation_length (argsort_perm a)). apply length_seq.
Qed.

Lemma take_argsort a :
  np.take 0%Q a (np.argsort a)
  = map fst (np.sort_pairs (combine a (seq 0 (length a)))).
Proof.
  unfold np.take, np.argsort. rewrite map_map.
  apply map_ext_in. intros p Hp.
  pose proof (combine_seq_nth a) as H.
  eapply Permutation_Forall in H; [|symmetry; apply sort_pairs_perm].
  rewrite Forall_forall in H. now apply H.
Qed.

Lemma take_argsort_perm a : Permutation (np.take 0%Q a (np.argsort a)) a.
Proof.
  rewrite take_argsort.
  transitivity (map fst (combine a (seq 0 (length a)))).
  - apply Permutation_map, sort_pairs_perm.
  - now rewrite map_fst_combine_seq.
Qed.

Lemma take_argsort_sorted a :
  StronglySorted Qle (np.take 0%Q a (np.argsort a)).
Proof.
  rewrite take_argsort.
  generalize (sort_pairs_sorted (combine a (seq 0 (length a)))).
  generalize (np.sort_pairs (combine a (seq 0 (length a)))).
  induction 1 as [|p r Hs IH Hp]; simpl; constructor; [exact IH|].
  rewrite Forall_map. exact Hp.
Qed.

End Sorting.

(** ** Item and scattered assignment *)

Lemma nth_map_in {A B : Type} (f : A -> B) (l : list A) i d d' :
  i < length l -> nth i (map f l) d = f (nth i l d').
Proof.
  revert i. induction l as [|x r IH]; intros [|i] H; simpl in *;
    try lia; [reflexivity|]. apply IH. lia.
Qed.

Section Scatter.

Context {A : Type} (d : A).

Lemma upd_length i v (a : list A) : length (np.upd i v a) = length a.
Proof.
  revert i. induction a as [|x r IH]; intros [|i]; simpl; auto.
Qed.

Lemma nth_upd_eq i v (a : list A) :
  i < length a -> nth i (np.upd i v a) d = v.
Proof.
  revert i. induction a as [|x r IH]; intros [|i] H; simpl in *;
    try lia; [reflexivity|]. apply IH. lia.
Qed.

Lemma nth_upd_neq i j v (a : list A) :
  i <> j -> nth j (np.upd i v a) d = nth j a d.
Proof.
  revert i j. induction a as [|x r IH]; intros [|i] [|j] H; simpl;
    try reflexivity; try lia. apply IH. lia.
Qed.

Lemma scatter_cons i idx v vals (a : list A) :
  np.scatter (i :: idx) (v :: vals) a = np.scatter idx vals (np.upd i v a).
Proof. reflexivity. Qed.

Lemma scatter_length idx vals (a : list A) :
  length (np.scatter idx vals a) = length a.
Proof.
  revert vals a. induction idx as [|i idx IH]; intros [|v vals] a;
    try reflexivity.
  rewrite scatter_cons, IH. apply upd_length.
Qed.

Lemma scatter_untouched idx vals (a : list A) j :
  ~ In j idx -> nth j (np.scatter idx vals a) d = nth j a d.
Proof.
  revert vals a. induction idx as [|i idx IH]; intros [|v vals] a Hj;
    try reflexivity.
  rewrite scatter_cons, IH by (intro; apply Hj; now right).
  apply nth_upd_neq. intro; apply Hj; now left.
Qed.

Lemma scatter_nth idx vals (a : list A) k :
  NoDup idx -> length idx = length vals ->
  (forall i, In i idx -> i < length a) -> k < length idx ->
  nth (nth k idx 0) (np.scatter idx vals a) d = nth k vals d.
Proof.
  revert vals a k.
  induction idx as [|i idx IH]; intros [|v vals] a k Hnd Hlen Hin Hk;
    simpl in Hlen, Hk; try lia.
  rewrite scatter_cons. inversion Hnd as [|? ? Hni Hnd']; subst.
  destruct k as [|k]; simpl.
  - rewrite scatter_untouched by assumption.
    apply nth_upd_eq. apply Hin. now left.
  - apply IH; try assumption; try lia.
    intros j Hj. rewrite upd_length. apply Hin. now right.
Qed.

End Scatter.

(** ** Runs of equal values in a sorted array *)

Lemma nonzero_from_head bs k :
  nth 0 (np.nonzero_from k bs ++ [k + length bs]) 0 = k + find_true bs.
Proof.
  revert k. induction bs as [|[|] r IH]; intro k; simpl.
  - reflexivity.
  - lia.
  - replace (k + S (length r)) with (S k + length r) by lia.
    rewrite IH. lia.
Qed.

Lemma cumsum_bool_from_ge bs acc p :
  p < length bs -> acc <= nth p (np.cumsum_bool_from acc bs) 0.
Proof.
  revert acc p. induction bs as [|b r IH]; intros acc [|p] H; simpl in *;
    try lia.
  - destruct b; lia.
  - etransitivity; [|apply IH; lia]. destruct b; lia.
Qed.

Lemma cumsum_bool_from_length bs acc :
  length (np.cumsum_bool_from acc bs) = length bs.
Proof.
  revert acc. induction bs as [|b r IH]; intro acc; simpl; auto.
Qed.

(** The dense rank of position [p], looked up in the table of run starts,
    is the start of the next run. *)
Lemma count_of_dense bs p k acc :
  p < length bs ->
  nth (nth p (np.cumsum_bool_from acc bs) 0 - acc)
      (np.nonzero_from k bs ++ [k + length bs]) 0
  = k + S p + find_true (skipn (S p) bs).
Proof.
  revert p k acc. induction bs as [|b r IH]; intros p k acc Hp;
    simpl in Hp; [lia|].
  replace (k + length (b :: r)) with (S k + length r) by (simpl; lia).
  destruct p as [|p].
  - cbn [np.cumsum_bool_from nth skipn np.nonzero_from].
    destruct b.
    + replace (S acc - acc) with 1 by lia.
      cbn [app nth]. rewrite nonzero_from_head. lia.
    + replace (acc - acc) with 0 by lia.
      rewrite nonzero_from_head. lia.
  - assert (Hp' : p < length r) by lia.
    cbn [np.cumsum_bool_from nth np.nonzero_from].
    change (skipn (S (S p)) (b :: r)) with (skipn (S p) r).
    destruct b.
    + pose proof (cumsum_bool_from_ge r (S acc) Hp') as Hge.
      replace (nth p (np.cumsum_bool_from (S acc) r) 0 - acc)
        with (S (nth p (np.cumsum_bool_from (S acc) r) 0 - S acc)) by lia.
      cbn [app nth]. rewrite IH by assumption. lia.
    + rewrite IH by assumption. lia.
Qed.

Lemma count_le_cons x a l :
  count_le x (a :: l)
  = if Qle_bool a x then S (count_le x l) else count_le x l.
Proof. unfold count_le. simpl. now destruct (Qle_bool a x). Qed.

Lemma count_le_Qeq x y l : (x == y)%Q -> count_le x l = count_le y l.
Proof.
  intro E. induction l as [|a r IH]; [reflexivity|].
  rewrite !count_le_cons, IH.
  destruct (Qle_bool a x) eqn:Hx, (Qle_bool a y) eqn:Hy; try reflexivity.
  - apply Qle_bool_iff in Hx. rewrite E in Hx.
    apply Qle_bool_iff in Hx. congruence.
  - apply Qle_bool_iff in Hy. rewrite <- E in Hy.
    apply Qle_bool_iff in Hy. congruence.
Qed.

Lemma count_le_perm x l l' :
  Permutation l l' -> count_le x l = count_le x l'.
Proof.
  induction 1; rewrite ?count_le_cons; try congruence.
  - now rewrite IHPermutation.
  - now destruct (Qle_bool x0 x), (Qle_bool y x).
Qed.

Lemma count_le_above x l :
  Forall (fun y => (x < y)%Q) l -> count_le x l = 0.
Proof.
  induction 1 as [|a r Ha _ IH]; [reflexivity|].
  rewrite count_le_cons, IH.
  destruct (Qle_bool a x) eqn:E; [|reflexivity].
  apply Qle_bool_iff in E. cbv beta in Ha. exfalso. lra.
Qed.

Lemma count_le_bound x l : count_le x l <= length l.
Proof. apply filter_length_le. Qed.

Lemma adjacent_neq_cons2 x y r :
  np.adjacent_neq (x :: y :: r)
  = negb (Qeq_bool y x) :: np.adjacent_neq (y :: r).
Proof. reflexivity. Qed.

Lemma adjacent_neq_length a : length (np.adjacent_neq a) = length a - 1.
Proof.
  unfold np.adjacent_neq. rewrite length_map, length_combine.
  destruct a; simpl; lia.
Qed.

Lemma head_run r a :
  StronglySorted Qle (a :: r) ->
  find_true (np.adjacent_neq (a :: r)) = count_le a r.
Proof.
  revert a. induction r as [|b r IH]; intros a Hs; [reflexivity|].
  rewrite adjacent_neq_cons2, count_le_cons.
  inversion Hs as [|? ? Hs' Hall]; subst.
  inversion Hall as [|? ? Hab Hall']; subst.
  destruct (Qeq_bool b a) eqn:E; simpl.
  - apply Qeq_bool_iff in E.
    rewrite IH by assumption.
    rewrite (count_le_Qeq r E).
    destruct (Qle_bool b a) eqn:E'; [reflexivity|].
    assert (Qle_bool b a = true) by (apply Qle_bool_iff; lra). congruence.
  - assert (Hlt : (a < b)%Q).
    { apply Qle_lt_or_eq in Hab. destruct Hab as [|Heq]; [assumption|].
      symmetry in Heq. apply Qeq_bool_iff in Heq. congruence. }
    destruct (Qle_bool b a) eqn:E'.
    + apply Qle_bool_iff in E'. exfalso. lra.
    + symmetry. apply count_le_above.
      inversion Hs' as [|? ? _ Hb]; subst.
      eapply Forall_impl; [|exact Hb]. intros z Hz. simpl in Hz. lra.
Qed.

Lemma sorted_run s p :
  StronglySorted Qle s -> p < length s ->
  S p + find_true (skipn p (np.adjacent_neq s)) = count_le (nth p s 0%Q) s.
Proof.
  intro Hs. revert p. induction Hs as [|a r Hs IH Ha]; intros p Hp;
    simpl in Hp; [lia|].
  destruct p as [|p].
  - cbn [skipn nth]. rewrite head_run by now constructor.
    rewrite count_le_cons.
    assert (Qle_bool a a = true) as -> by (apply Qle_bool_iff; lra).
    reflexivity.
  - assert (Hp' : p < length r) by lia.
    change (nth (S p) (a :: r) 0%Q) with (nth p r 0%Q).
    replace (skipn (S p) (np.adjacent_neq (a :: r)))
      with (skipn p (np.adjacent_neq r))
      by (destruct r; [simpl in Hp'; lia | reflexivity]).
    rewrite count_le_cons.
    assert (Qle_bool a (nth p r 0%Q) = true) as ->.
    { apply Qle_bool_iff. rewrite Forall_forall in Ha.
      apply Ha. now apply nth_In. }
    rewrite <- IH by assumption. lia.
Qed.

Lemma count_of_dense0 bs p :
  p < length bs ->
  nth (nth p (np.cumsum_bool bs) 0) (np.nonzero bs ++ [length bs]) 0
  = S p + find_true (skipn (S p) bs).
Proof.
  intro Hp. pose proof (count_of_dense bs 0 0 Hp) as H.
  rewrite Nat.sub_0_r in H. exact H.
Qed.

(** ** The rank of an entry is the number of entries below or equal to it *)

Lemma argsort_NoDup a : NoDup (np.argsort a).
Proof.
  eapply Permutation_NoDup; [symmetry; apply argsort_perm|apply seq_NoDup].
Qed.

Lemma argsort_bound a i : In i (np.argsort a) -> i < length a.
Proof.
  intro H. eapply Permutation_in in H; [|apply argsort_perm].
  apply in_seq in H. lia.
Qed.

Lemma argsort_position a i :
  i < length a -> exists k, k < length a /\ nth k (np.argsort a) 0 = i.
Proof.
  intro Hi.
  assert (Hin : In i (np.argsort a)).
  { eapply Permutation_in; [symmetry; apply argsort_perm|].
    apply in_seq. lia. }
  destruct (In_nth _ _ 0 Hin) as [k [Hk Hnth]].
  rewrite argsort_length in Hk. eauto.
Qed.

(** The boundary table read at the dense rank of the sorted position [k]
    counts the entries below or equal to the entry found there. *)
Lemma boundary_count a k :
  k < length a ->
  let arr := np.take 0%Q a (np.argsort a) in
  let obs := true :: np.adjacent_neq arr in
  nth (nth k (np.cumsum_bool obs) 0) (np.nonzero obs ++ [length obs]) 0
  = count_le (nth (nth k (np.argsort a) 0) a 0%Q) a.
Proof.
  intros Hk arr obs.
  assert (Hlen : length arr = length a).
  { unfold arr, np.take. now rewrite length_map, argsort_length. }
  assert (Hobs : length obs = length a).
  { unfold obs. simpl. rewrite adjacent_neq_length. lia. }
  rewrite count_of_dense0 by lia.
  change (skipn (S k) obs) with (skipn k (np.adjacent_neq arr)).
  rewrite sorted_run by (try apply take_argsort_sorted; lia).
  rewrite (count_le_perm _ (take_argsort_perm a)).
  unfold arr, np.take.
  rewrite nth_map_in with (d' := 0) by now rewrite argsort_length.
  reflexivity.
Qed.

Lemma take_length {A : Type} (d : A) a idx :
  length (np.take d a idx) = length idx.
Proof. apply length_map. Qed.

Lemma take_nth {A : Type} (d : A) a idx i :
  i < length idx -> nth i (np.take d a idx) d = nth (nth i idx 0) a d.
Proof. intro H. unfold np.take. now rewrite nth_map_in with (d' := 0). Qed.

Lemma rankdata_max_length a : length (scipy.rankdata_max a) = length a.
Proof.
  unfold scipy.rankdata_max.
  rewrite length_map, !take_length, scatter_length, repeat_length.
  apply argsort_length.
Qed.

Lemma rankdata_max_nth a i :
  i < length a ->
  nth i (scipy.rankdata_max a) 0%Z = Z.of_nat (count_le (nth i a 0%Q) a).
Proof.
  intro Hi. unfold scipy.rankdata_max.
  rewrite argsort_length.
  rewrite nth_map_in with (d' := 0)
    by now rewrite !take_length, scatter_length, repeat_length.
  f_equal.
  rewrite !take_nth
    by now rewrite ?take_length, scatter_length, repeat_length.
  destruct (argsort_position a Hi) as [k [Hk Hki]].
  rewrite <- Hki at 1.
  rewrite scatter_nth;
    [| apply argsort_NoDup
     | now rewrite length_seq, argsort_length
     | intros j Hj; rewrite repeat_length; now apply argsort_bound
     | now rewrite argsort_length ].
  rewrite seq_nth by assumption. change (0 + k) with k.
  rewrite (boundary_count a Hk). now rewrite Hki.
Qed.

Lemma count_le_pos x l : In x l -> 1 <= count_le x l.
Proof.
  induction l as [|a r IH]; [intros []|intros [H|H]; rewrite count_le_cons].
  - subst a.
    assert (Qle_bool x x = true) as -> by (apply Qle_bool_iff; lra). lia.
  - specialize (IH H). destruct (Qle_bool a x); lia.
Qed.

Lemma count_le_all x l :
  Forall (fun y => (y <= x)%Q) l -> count_le x l = length l.
Proof.
  induction 1 as [|a r Ha _ IH]; [reflexivity|].
  rewrite count_le_cons, IH. apply Qle_bool_iff in Ha. now rewrite Ha.
Qed.

(** ** Well-formed grids *)

Lemma grid_wf_spec fd :
  grid_wf fd = true ->
  1 <= nsamples fd /\ 1 <= ndim_domain fd /\ 1 <= ndim_image fd
  /\ Forall (fun ax => 1 <= length ax) (sample_points fd)
  /\ Forall (fun s => length s = grid_size fd
                      /\ Forall (fun v => length v = ndim_image fd) s)
       (data_matrix fd)
  /\ length (domain_range fd) = ndim_domain fd.
Proof.
  unfold grid_wf. rewrite !andb_true_iff, !Nat.leb_le, Nat.eqb_eq.
  intros [[[[[Hn Hd] Hi] Hax] Hdm] Hr]. repeat split; try assumption.
  - rewrite forallb_forall in Hax. apply Forall_forall. intros ax Hin.
    specialize (Hax ax Hin). rewrite andb_true_iff, Nat.leb_le in Hax.
    tauto.
  - rewrite forallb_forall in Hdm. apply Forall_forall. intros s Hin.
    specialize (Hdm s Hin). rewrite andb_true_iff, Nat.eqb_eq in Hdm.
    destruct Hdm as [Hl Hv]. split; [exact Hl|].
    rewrite forallb_forall in Hv. apply Forall_forall. intros v Hv'.
    apply Nat.eqb_eq. now apply Hv.
Qed.

Lemma grid_size_pos fd : grid_wf fd = true -> 1 <= grid_size fd.
Proof.
  intro H. destruct (grid_wf_spec fd H) as (_ & _ & _ & Hax & _).
  unfold grid_size.
  assert (G : forall acc, 1 <= acc ->
            1 <= fold_left (fun x y => x * length y) (sample_points fd) acc).
  { induction Hax as [|ax r Hlen _ IH]; intros acc Hacc; simpl;
      [assumption|]. apply IH. nia. }
  apply G. lia.
Qed.

Lemma grid_rows fd :
  grid_wf fd = true -> length (hd [] (data_matrix fd)) = grid_size fd.
Proof.
  intro H. destruct (grid_wf_spec fd H) as (Hn & _ & _ & _ & Hdm & _).
  unfold nsamples in Hn.
  destruct (data_matrix fd) as [|s r]; simpl in *; [lia|].
  inversion Hdm as [|? ? [Hs _] _]; subst. exact Hs.
Qed.

Lemma column_length fd t : length (column fd t) = nsamples fd.
Proof. unfold column. apply length_map. Qed.

(** ** The rank array: one column per grid point *)

Lemma set_column_length t col (R : list (list Z)) :
  length col = length R -> length (set_column t col R) = length R.
Proof.
  intro H. unfold set_column, zip_with.
  rewrite length_map, length_combine. lia.
Qed.

Lemma set_column_row t col (R : list (list Z)) i :
  length col = length R -> i < length R ->
  nth i (set_column t col R) [] = np.upd t (nth i col 0%Z) (nth i R []).
Proof.
  intros Hl Hi. unfold set_column, zip_with.
  rewrite nth_map_in with (d' := ([], 0%Z))
    by (rewrite length_combine; lia).
  rewrite combine_nth by lia. reflexivity.
Qed.

Lemma rank_loop (cols : nat -> list Z) n P ts :
  (forall t, length (cols t) = n) ->
  forall R, length R = n -> Forall (fun row => length row = P) R ->
  let R' := fold_left (fun r index => set_column index (cols index) r) ts R in
  length R' = n
  /\ Forall (fun row => length row = P) R'
  /\ forall i t, i < n -> t < P ->
       nth t (nth i R' []) 0%Z
       = if existsb (Nat.eqb t) ts then nth i (cols t) 0%Z
         else nth t (nth i R []) 0%Z.
Proof.
  intro Hc. induction ts as [|t0 ts IH]; intros R Hn HP; simpl.
  - auto.
  - assert (Hn' : length (set_column t0 (cols t0) R) = n)
      by (rewrite set_column_length; rewrite ?Hc; auto).
    assert (HP' : Forall (fun row => length row = P)
                    (set_column t0 (cols t0) R)).
    { apply Forall_forall. intros row Hin.
      destruct (In_nth _ _ [] Hin) as [i [Hi Hrow]].
      rewrite Hn' in Hi.
      rewrite set_column_row in Hrow by (rewrite ?Hc; lia).
      subst row. rewrite upd_length.
      rewrite Forall_forall in HP. apply HP, nth_In. lia. }
    destruct (IH _ Hn' HP') as (H1 & H2 & H3).
    repeat split; try assumption.
    intros i t Hi Ht. rewrite H3 by assumption.
    destruct (existsb (Nat.eqb t) ts) eqn:E.
    + now rewrite orb_true_r.
    + rewrite orb_false_r.
      rewrite set_column_row by (rewrite ?Hc; lia).
      destruct (Nat.eqb_spec t t0) as [->|Hne].
      * apply nth_upd_eq. rewrite Forall_forall in HP.
        rewrite (HP (nth i R [])); [assumption|]. apply nth_In. lia.
      * apply nth_upd_neq. auto.
Qed.

(** The value of sample [i] at the grid point [t]. *)
Lemma column_nth fd t i :
  i < nsamples fd ->
  nth i (column fd t) 0%Q
  = nth 0 (nth t (nth i (data_matrix fd) []) []) 0%Q.
Proof.
  intro Hi. unfold column. now rewrite nth_map_in with (d' := []).
Qed.

Lemma rank_samples_ok fd :
  grid_wf fd = true -> ndim_image fd = 1 ->
  exists ranks,
    _rank_samples fd = Ok ranks
    /\ length ranks = nsamples fd
    /\ Forall (fun row => length row = grid_size fd) ranks
    /\ forall i t, i < nsamples fd -> t < grid_size fd ->
         nth t (nth i ranks []) 0%Z
         = Z.of_nat (count_le (nth i (column fd t) 0%Q) (column fd t)).
Proof.
  intros Hwf Him. unfold _rank_samples. rewrite Him. simpl (1 <? 1).
  cbv iota. eexists. split; [reflexivity|].
  pose proof (grid_wf_spec fd Hwf) as (Hn & _).
  rewrite (grid_rows fd Hwf).
  assert (Hhd : length (hd [] (repeat (repeat 0%Z (grid_size fd))
                                  (nsamples fd))) = grid_size fd).
  { destruct (nsamples fd); [lia|]. simpl. apply repeat_length. }
  rewrite Hhd.
  destruct (@rank_loop (fun t => scipy.rankdata_max (column fd t))
              (nsamples fd) (grid_size fd) (seq 0 (grid_size fd)))
    with (R := repeat (repeat 0%Z (grid_size fd)) (nsamples fd))
    as (H1 & H2 & H3).
  - intro t. now rewrite rankdata_max_length, column_length.
  - apply repeat_length.
  - apply Forall_forall. intros row Hin. apply repeat_spec in Hin.
    subst row. apply repeat_length.
  - repeat split; try assumption.
    intros i t Hi Ht. rewrite H3 by assumption.
    assert (existsb (Nat.eqb t) (seq 0 (grid_size fd)) = true) as ->.
    { apply existsb_exists. exists t. split; [apply in_seq; lia|].
      apply Nat.eqb_refl. }
    apply rankdata_max_nth. now rewrite column_length.
Qed.

(** ** Distinct values, inverse indexes and cumulative counts *)

Lemma cumsum_diff_int r x : np.cumsum_from x (np.diff_int (x :: r)) = r.
Proof.
  revert x. induction r as [|y r IH]; intro x; [reflexivity|].
  change (np.diff_int (x :: y :: r))
    with ((y - x)%Z :: np.diff_int (y :: r)).
  cbn [np.cumsum_from].
  replace (x + (y - x))%Z with y by lia. now rewrite IH.
Qed.

Lemma cumsum_bool_from_le bs acc k p :
  nth p (np.cumsum_bool_from acc bs) 0 <= acc + length (np.nonzero_from k bs).
Proof.
  revert acc k p. induction bs as [|b r IH]; intros acc k [|p]; simpl;
    try lia.
  - destruct b; simpl; lia.
  - destruct b; simpl.
    + specialize (IH (S acc) (S k) p). lia.
    + apply IH.
Qed.

Lemma mask_of_sorted a :
  1 <= length a ->
  match np.take 0%Q a (np.argsort a) with
  | [] => []
  | _ :: _ => true :: np.adjacent_neq (np.take 0%Q a (np.argsort a))
  end = true :: np.adjacent_neq (np.take 0%Q a (np.argsort a)).
Proof.
  intro H.
  pose proof (take_length 0%Q a (np.argsort a)) as Hl.
  rewrite argsort_length in Hl.
  destruct (np.take 0%Q a (np.argsort a)); [simpl in Hl; lia|reflexivity].
Qed.

Lemma unique_inverse_length ar :
  length (snd (fst (np.unique_inverse_counts ar))) = length ar.
Proof.
  unfold np.unique_inverse_counts. cbn [fst snd].
  rewrite scatter_length, repeat_length.
  destruct ar as [|x r]; [reflexivity|].
  rewrite mask_of_sorted by (simpl; lia).
  cbn [length]. rewrite adjacent_neq_length, take_length, argsort_length.
  simpl. lia.
Qed.

Lemma unique_counts_spec ar i :
  i < length ar ->
  let r := np.unique_inverse_counts ar in
  nth i (snd (fst r)) 0 < length (np.cumsum (snd r))
  /\ nth (nth i (snd (fst r)) 0) (np.cumsum (snd r)) 0%Z
     = Z.of_nat (count_le (nth i ar 0%Q) ar).
Proof.
  intro Hi. unfold np.unique_inverse_counts. cbn [fst snd].
  rewrite mask_of_sorted by lia.
  set (arr := np.take 0%Q ar (np.argsort ar)).
  set (obs := true :: np.adjacent_neq arr).
  assert (Hobs : length obs = length ar).
  { unfold obs, arr. cbn [length].
    rewrite adjacent_neq_length, take_length, argsort_length. lia. }
  (* the cumulative counts are the run boundaries after the first *)
  assert (Hcum : np.cumsum (np.diff_int
                   (map Z.of_nat (np.nonzero obs ++ [length obs])))
                 = map Z.of_nat (tl (np.nonzero obs ++ [length obs]))).
  { unfold obs at 1 3. unfold np.nonzero, np.cumsum.
    cbn [np.nonzero_from app map tl]. apply cumsum_diff_int. }
  rewrite Hcum.
  (* the inverse index of entry [i] is its dense rank minus one *)
  destruct (argsort_position ar Hi) as [k [Hk Hki]].
  assert (Hinv :
    nth i (np.scatter (np.argsort ar)
             (map (fun c => c - 1) (np.cumsum_bool obs))
             (repeat 0 (length obs))) 0
    = nth k (np.cumsum_bool obs) 0 - 1).
  { rewrite <- Hki at 1.
    rewrite scatter_nth;
      [| apply argsort_NoDup
       | unfold np.cumsum_bool;
         now rewrite length_map, cumsum_bool_from_length, argsort_length
       | intros j Hj; rewrite repeat_length, Hobs; now apply argsort_bound
       | now rewrite argsort_length ].
    rewrite nth_map_in with (d' := 0); [reflexivity|].
    unfold np.cumsum_bool. rewrite cumsum_bool_from_length. lia. }
  rewrite Hinv.
  set (c := nth k (np.cumsum_bool obs) 0).
  assert (Hc1 : 1 <= c).
  { unfold c, obs, np.cumsum_bool. cbn [np.cumsum_bool_from].
    destruct k as [|k']; cbn [nth]; [lia|].
    apply cumsum_bool_from_ge.
    unfold arr. rewrite adjacent_neq_length, take_length, argsort_length.
    lia. }
  assert (Hc2 : c <= length (np.nonzero obs)).
  { unfold c, np.cumsum_bool, np.nonzero.
    apply (cumsum_bool_from_le obs 0 0 k). }
  split.
  - rewrite length_map.
    destruct (np.nonzero obs ++ [length obs]) as [|z l] eqn:E.
    + destruct (np.nonzero obs); discriminate.
    + apply (f_equal (@length nat)) in E.
      rewrite length_app in E. cbn [length] in E. cbn [tl]. lia.
  - change 0%Z with (Z.of_nat 0). rewrite map_nth. f_equal.
    replace (nth (c - 1) (tl (np.nonzero obs ++ [length obs])) 0)
      with (nth c (np.nonzero obs ++ [length obs]) 0).
    + pose proof (boundary_count ar Hk) as B. cbv zeta in B.
      fold arr in B. fold obs in B. fold c in B. rewrite B.
      now rewrite Hki.
    + destruct (np.nonzero obs ++ [length obs]) as [|z l].
      * destruct c as [|[|c']]; reflexivity.
      * destruct c as [|c']; [lia|]. cbn [tl nth]. f_equal. lia.
Qed.

(** ** The pointwise rank engine *)

(** C3: on a grid with a scalar image, [_rank_samples] ranks the samples
    independently at every grid point by competition ranking with ties
    taking the maximum rank of the tie group: the rank of a sample at a point
    is the number of samples whose value there is less than or equal to its
    own, an integer between 1 and [nsamples]; every sample holding the top
    value at a point receives the rank [nsamples]. *)
Theorem rank_samples_max_competition (fd : FDataGrid) :
  grid_wf fd = true -> ndim_image fd = 1 ->
  exists ranks,
    _rank_samples fd = Ok ranks
    /\ length ranks = nsamples fd
    /\ Forall (fun row => length row = grid_size fd) ranks
    /\ max_competition_ranks fd ranks.
Proof.
  intros Hwf Him.
  destruct (rank_samples_ok fd Hwf Him) as (ranks & E & Hn & HP & H).
  exists ranks. split; [|split; [|split]]; try assumption.
  intros i t Hi Ht. cbv zeta.
  rewrite (H i t Hi Ht), column_nth by assumption. fold (value fd i t).
  assert (Hin : In (value fd i t) (column fd t)).
  { unfold value. rewrite <- column_nth by assumption.
    apply nth_In. now rewrite column_length. }
  pose proof (count_le_pos _ _ Hin) as Hpos.
  pose proof (count_le_bound (value fd i t) (column fd t)) as B.
  rewrite column_length in B.
  split; [reflexivity|]. split; [lia|].
  intro Htop. f_equal.
  rewrite <- (column_length fd t). apply count_le_all.
  apply Forall_forall. intros w Hw.
  destruct (In_nth _ _ 0%Q Hw) as [j [Hj Hwj]].
  rewrite column_length in Hj. rewrite column_nth in Hwj by assumption.
  subst w. now apply Htop.
Qed.

Lemma rank_samples_max_competition_witness :
  grid_wf reference_grid = true /\ ndim_image reference_grid = 1
  /\ exists ranks,
       _rank_samples reference_grid = Ok ranks
       /\ length ranks = nsamples reference_grid
       /\ Forall (fun row => length row = grid_size reference_grid) ranks
       /\ max_competition_ranks reference_grid ranks.
Proof.
  split; [reflexivity|]. split; [reflexivity|].
  apply (rank_samples_max_competition reference_grid); reflexivity.
Defined.

(** ** The empirical distribution step *)

Lemma cumulative_distribution_ok (x : list Q) :
  exists out,
    _cumulative_distribution (mk_ndarray [length x] x)
    = Ok (mk_ndarray [length x] out)
    /\ empirical_proportions x out.
Proof.
  unfold _cumulative_distribution. cbn [shape data length Nat.eqb negb hd].
  pose proof (unique_inverse_length x) as Hlen.
  pose proof (fun i => @unique_counts_spec x i) as Hspec.
  destruct (np.unique_inverse_counts x) as [[u indexes] counts].
  cbn [fst snd] in Hlen, Hspec.
  eexists. split; [reflexivity|].
  assert (Hnth : forall i, i < length x ->
    nth i (np.take 0%Q
             (map (fun c => (inject_Z c / inject_Z (Z.of_nat (length x)))%Q)
                (np.cumsum counts)) indexes) 0%Q
    = (inject_Z (Z.of_nat (count_le (nth i x 0%Q) x))
       / inject_Z (Z.of_nat (length x)))%Q).
  { intros i Hi. destruct (Hspec i Hi) as [Hr Hv].
    rewrite take_nth by lia.
    rewrite nth_map_in with (d' := 0%Z) by assumption.
    now rewrite Hv. }
  split; [now rewrite take_length|]. split; [exact Hnth|].
  intros i j Hi Hj E. rewrite !Hnth by assumption.
  now rewrite (count_le_Qeq x E).
Qed.

(** C4: for a one-dimensional array of n values, [_cumulative_distribution]
    returns, per entry, the proportion of the n values that are less than or
    equal to the entry, tied entries sharing the same proportion; on
    [1,4,5,1,2,2,4,1,1,3] it returns
    [0.4,0.9,1.0,0.4,0.6,0.6,0.9,0.4,0.4,0.7]. *)
Theorem cumulative_distribution_proportions :
  (forall x : list Q,
     exists out,
       _cumulative_distribution (mk_ndarray [length x] x)
       = Ok (mk_ndarray [length x] out)
       /\ empirical_proportions x out)
  /\ _cumulative_distribution
       (mk_ndarray [10] [1; 4; 5; 1; 2; 2; 4; 1; 1; 3]%Q)
     = Ok (mk_ndarray [10]
             [0.4; 0.9; 1.0; 0.4; 0.6; 0.6; 0.9; 0.4; 0.4; 0.7]%Q).
Proof.
  split; [exact cumulative_distribution_ok|]. vm_compute. reflexivity.
Qed.

(** ** Closed forms of the band depths *)

Lemma zip_with_map {A B C D : Type} (h : B -> C -> D) (f : A -> B)
    (g : A -> C) (l : list A) :
  zip_with h (map f l) (map g l) = map (fun x => h (f x) (g x)) l.
Proof.
  unfold zip_with. induction l as [|x r IH]; simpl; [reflexivity|].
  now rewrite IH.
Qed.

Lemma modified_band_depth_unfold fd pointwise ranks :
  _rank_samples fd = Ok ranks ->
  let n := Z.of_nat (nsamples fd) in
  modified_band_depth fd pointwise
  = Ok (if pointwise
        then DepthPointwise
               (map (modified_band_depth_row n (grid_size fd)) ranks)
               (map (pointwise_row n) ranks)
        else Depth (map (modified_band_depth_row n (grid_size fd)) ranks)).
Proof.
  intros E n. unfold modified_band_depth. rewrite E. cbn [bind].
  fold n. rewrite zip_with_map.
  assert (Hm : map (fun x => zip_with Z.mul (map (fun r => (n - r)%Z) x)
                               (map (fun r => (r - 1)%Z) x)) ranks
               = map (match_row n) ranks).
  { apply map_ext. intro row. apply zip_with_map. }
  rewrite Hm, !map_map. destruct pointwise; reflexivity.
Qed.

Lemma band_depth_unfold fd pointwise ranks :
  _rank_samples fd = Ok ranks ->
  let n := Z.of_nat (nsamples fd) in
  band_depth fd pointwise
  = Ok (if pointwise
        then DepthPointwise (map (band_depth_row n) ranks)
               (map (pointwise_row n) ranks)
        else Depth (map (band_depth_row n) ranks)).
Proof.
  intros E n. unfold band_depth. rewrite E. cbn [bind]. fold n.
  rewrite zip_with_map.
  destruct pointwise; [|reflexivity].
  rewrite (modified_band_depth_unfold fd true E). reflexivity.
Qed.

(** ** Pointwise output of band depth *)

(** C7: on a valid grid the pointwise array returned by
    [band_depth fd true] is the pointwise array returned by
    [modified_band_depth fd true]. *)
Theorem band_depth_pointwise_defers (fd : FDataGrid) :
  grid_wf fd = true -> 2 <= nsamples fd -> ndim_image fd = 1 ->
  exists depth depth' depth_pointwise,
    band_depth fd true = Ok (DepthPointwise depth depth_pointwise)
    /\ modified_band_depth fd true
       = Ok (DepthPointwise depth' depth_pointwise).
Proof.
  intros Hwf _ Him.
  destruct (rank_samples_ok fd Hwf Him) as (ranks & E & _).
  rewrite (band_depth_unfold fd true E).
  rewrite (modified_band_depth_unfold fd true E).
  eauto.
Qed.

Lemma band_depth_pointwise_defers_witness :
  grid_wf reference_grid = true /\ 2 <= nsamples reference_grid
  /\ ndim_image reference_grid = 1
  /\ exists depth depth' depth_pointwise,
       band_depth reference_grid true
       = Ok (DepthPointwise depth depth_pointwise)
       /\ modified_band_depth reference_grid true
          = Ok (DepthPointwise depth' depth_pointwise).
Proof.
  split; [reflexivity|]. split; [vm_compute; lia|]. split; [reflexivity|].
  apply (band_depth_pointwise_defers reference_grid);
    [reflexivity | vm_compute; lia | reflexivity].
Defined.

(** C10: on a valid grid the depth array returned by [band_depth] does not
    depend on the pointwise flag: the first component of
    [band_depth fd true] is the value of [band_depth fd false]. *)
Theorem band_depth_flag_independent (fd : FDataGrid) :
  grid_wf fd = true -> 2 <= nsamples fd -> ndim_image fd = 1 ->
  exists depth depth_pointwise,
    band_depth fd true = Ok (DepthPointwise depth depth_pointwise)
    /\ band_depth fd false = Ok (Depth depth).
Proof.
  intros Hwf _ Him.
  destruct (rank_samples_ok fd Hwf Him) as (ranks & E & _).
  rewrite (band_depth_unfold fd true E), (band_depth_unfold fd false E).
  eauto.
Qed.

Lemma band_depth_flag_independent_witness :
  grid_wf reference_grid = true /\ 2 <= nsamples reference_grid
  /\ ndim_image reference_grid = 1
  /\ exists depth depth_pointwise,
       band_depth reference_grid true
       = Ok (DepthPointwise depth depth_pointwise)
       /\ band_depth reference_grid false = Ok (Depth depth).
Proof.
  split; [reflexivity|]. split; [vm_compute; lia|]. split; [reflexivity|].
  apply (band_depth_flag_independent reference_grid);
    [reflexivity | vm_compute; lia | reflexivity].
Defined.

(** ** Error conditions *)

Lemma mapM_Forall2 {A B : Type} (f : A -> result B) (P : A -> B -> Prop)
    (l : list A) :
  (forall x, In x l -> exists y, f x = Ok y /\ P x y) ->
  exists ys, mapM f l = Ok ys /\ Forall2 P l ys.
Proof.
  induction l as [|x r IH]; intro H.
  - exists []. split; [reflexivity|constructor].
  - destruct (H x (or_introl eq_refl)) as (y & Ey & Py).
    destruct IH as (ys & Eys & Pys); [intros z Hz; apply H; now right|].
    exists (y :: ys). split; [|now constructor].
    cbn [mapM]. rewrite Ey. cbn [bind]. rewrite Eys. reflexivity.
Qed.

(** The rows built by the comprehension of [fraiman_muniz_depth]: one per
    grid point, holding the univariate depth of every sample there. *)
Lemma fraiman_muniz_rows fd (ts : list nat) :
  exists rows,
    mapM (fun i =>
            F <- _cumulative_distribution
                   (mk_ndarray [nsamples fd] (column fd i)) ;;
            Ok (map (fun v => (1 - Qabs ((1 # 2) - v))%Q) (data F))) ts
    = Ok rows
    /\ Forall2 (fun t row =>
                  length row = nsamples fd
                  /\ forall i, i < nsamples fd ->
                       nth i row 0%Q
                       = univariate_depth (value fd i t) (column fd t))
         ts rows.
Proof.
  apply mapM_Forall2. intros t _.
  destruct (cumulative_distribution_ok (column fd t))
    as (out & E & Hl & Hv & _).
  rewrite column_length in E, Hl. rewrite E. cbn [bind data].
  eexists. split; [reflexivity|].
  split; [now rewrite length_map|].
  intros i Hi.
  rewrite nth_map_in with (d' := 0%Q) by lia.
  rewrite Hv by now rewrite column_length.
  unfold univariate_depth. now rewrite column_nth.
Qed.

Lemma rank_samples_cases fd :
  (1 < ndim_image fd /\ _rank_samples fd = Raise InvalidDimension)
  \/ (ndim_image fd <= 1 /\ exists ranks, _rank_samples fd = Ok ranks).
Proof.
  unfold _rank_samples. destruct (Nat.ltb_spec 1 (ndim_image fd)).
  - left. auto.
  - right. eauto.
Qed.

Lemma raises_exactly_intro {A : Type} (r : result A) (violated : Prop) :
  violated \/ ~ violated ->
  (violated -> r = Raise InvalidDimension) ->
  (~ violated -> exists v, r = Ok v) ->
  raises_exactly_when r violated.
Proof.
  intros Hdec Hv Hn. split; [split|]; auto.
  intro E. destruct Hdec as [H|H]; [assumption|].
  destruct (Hn H) as [v Ev]. congruence.
Qed.

Lemma rank_samples_raises fd :
  raises_exactly_when (_rank_samples fd) (1 < ndim_image fd).
Proof.
  apply raises_exactly_intro; [lia| |];
    destruct (rank_samples_cases fd) as [[H E]|[H E]]; auto; lia.
Qed.

Lemma band_depth_raises fd pointwise :
  raises_exactly_when (band_depth fd pointwise) (1 < ndim_image fd).
Proof.
  apply raises_exactly_intro; [lia| |];
    destruct (rank_samples_cases fd) as [[H E]|[H [r E]]]; try lia.
  - intros _. unfold band_depth. now rewrite E.
  - intros _. rewrite (band_depth_unfold fd pointwise E). eauto.
Qed.

Lemma modified_band_depth_raises fd pointwise :
  raises_exactly_when (modified_band_depth fd pointwise) (1 < ndim_image fd).
Proof.
  apply raises_exactly_intro; [lia| |];
    destruct (rank_samples_cases fd) as [[H E]|[H [r E]]]; try lia.
  - intros _. unfold modified_band_depth. now rewrite E.
  - intros _. rewrite (modified_band_depth_unfold fd pointwise E). eauto.
Qed.

Lemma cumulative_distribution_raises arr :
  raises_exactly_when (_cumulative_distribution arr)
    (length (shape arr) <> 1).
Proof.
  apply raises_exactly_intro; [lia| |]; unfold _cumulative_distribution;
    destruct (Nat.eqb_spec (length (shape arr)) 1); cbn [negb]; auto;
    try contradiction.
  intros _. destruct (np.unique_inverse_counts (data arr)) as [[u ix] c].
  eauto.
Qed.

Lemma fraiman_muniz_depth_raises fd pointwise :
  1 <= ndim_domain fd ->
  raises_exactly_when (fraiman_muniz_depth fd pointwise)
    (ndim_domain fd <> 1 \/ 1 < ndim_image fd).
Proof.
  intro Hdom.
  apply raises_exactly_intro; [lia| |]; unfold fraiman_muniz_depth;
    destruct (Nat.ltb_spec 1 (ndim_domain fd));
    destruct (Nat.ltb_spec 1 (ndim_image fd)); cbn [orb]; auto; try lia.
  intros _.
  destruct (fraiman_muniz_rows fd
              (seq 0 (length (nth 0 (sample_points fd) []))))
    as (rows & E & _).
  rewrite E. cbn [bind]. destruct pointwise; eauto.
Qed.

(** C9: every operation raises [InvalidDimension], and returns nothing,
    exactly when its precondition is violated, and returns a value
    otherwise: the rank engine and both band depths when the image
    dimension exceeds one, the empirical distribution step when its input is
    not one-dimensional, Fraiman-Muniz depth when the domain dimension is
    not one or the image dimension exceeds one. *)
Theorem invalid_dimension_exactly (fd : FDataGrid) (pointwise : bool)
    (arr : ndarray) :
  grid_wf fd = true ->
  raises_exactly_when (_rank_samples fd) (1 < ndim_image fd)
  /\ raises_exactly_when (band_depth fd pointwise) (1 < ndim_image fd)
  /\ raises_exactly_when (modified_band_depth fd pointwise)
       (1 < ndim_image fd)
  /\ raises_exactly_when (_cumulative_distribution arr)
       (length (shape arr) <> 1)
  /\ raises_exactly_when (fraiman_muniz_depth fd pointwise)
       (ndim_domain fd <> 1 \/ 1 < ndim_image fd).
Proof.
  intro Hwf. destruct (grid_wf_spec fd Hwf) as (_ & Hdom & _).
  split; [apply rank_samples_raises|].
  split; [apply band_depth_raises|].
  split; [apply modified_band_depth_raises|].
  split; [apply cumulative_distribution_raises|].
  now apply fraiman_muniz_depth_raises.
Qed.

Lemma invalid_dimension_exactly_witness :
  grid_wf reference_grid = true
  /\ raises_exactly_when (_cumulative_distribution
                            (mk_ndarray [2; 2] [1; 2; 3; 4]%Q))
       (length [2; 2] <> 1)
  /\ raises_exactly_when (fraiman_muniz_depth reference_grid false)
       (ndim_domain reference_grid <> 1 \/ 1 < ndim_image reference_grid).
Proof.
  split; [reflexivity|].
  split;
    apply (invalid_dimension_exactly reference_grid false
             (mk_ndarray [2; 2] [1; 2; 3; 4]%Q));
    reflexivity.
Defined.

(** ** Sums, maxima and minima *)

Lemma fold_left_Zadd l a : fold_left Z.add l a = (a + np.sumZ l)%Z.
Proof.
  unfold np.sumZ. revert a. induction l as [|x r IH]; intro a; simpl.
  - lia.
  - rewrite IH, (IH x). lia.
Qed.

Lemma sumZ_cons x l : np.sumZ (x :: l) = (x + np.sumZ l)%Z.
Proof. unfold np.sumZ at 1. simpl. apply fold_left_Zadd. Qed.

Lemma sumZ_bounds lo hi l :
  Forall (fun m => (lo <= m <= hi)%Z) l ->
  (Z.of_nat (length l) * lo <= np.sumZ l <= Z.of_nat (length l) * hi)%Z.
Proof.
  induction 1 as [|x r Hx _ IH]; [simpl; unfold np.sumZ; simpl; lia|].
  rewrite sumZ_cons. cbn [length]. lia.
Qed.



Lemma fold_max_bounds r x hi :
  (x <= fold_left Z.max r x)%Z
  /\ (Forall (fun v => (v <= hi)%Z) (x :: r) ->
      (fold_left Z.max r x <= hi)%Z).
Proof.
  revert x. induction r as [|y r IH]; intro x; simpl.
  - split; [lia|]. intro H. now inversion H.
  - destruct (IH (Z.max x y)) as [H1 H2]. split; [lia|].
    intro H. apply H2. inversion H as [|? ? Hx Hr]; subst.
    inversion Hr as [|? ? Hy Hr']; subst. constructor; [lia|assumption].
Qed.

Lemma fold_min_bounds r x lo :
  (fold_left Z.min r x <= x)%Z
  /\ (Forall (fun v => (lo <= v)%Z) (x :: r) ->
      (lo <= fold_left Z.min r x)%Z).
Proof.
  revert x. induction r as [|y r IH]; intro x; simpl.
  - split; [lia|]. intro H. now inversion H.
  - destruct (IH (Z.min x y)) as [H1 H2]. split; [lia|].
    intro H. apply H2. inversion H as [|? ? Hx Hr]; subst.
    inversion Hr as [|? ? Hy Hr']; subst. constructor; [lia|assumption].
Qed.

Lemma amin_amax_bounds lo hi row :
  1 <= length row -> Forall (fun r => (lo <= r <= hi)%Z) row ->
  (lo <= np.amin row)%Z /\ (np.amin row <= np.amax row)%Z
  /\ (np.amax row <= hi)%Z.
Proof.
  intros Hlen H. destruct row as [|x r]; [simpl in Hlen; lia|].
  cbn [np.amin np.amax].
  destruct (fold_max_bounds r x hi) as [M1 M2].
  destruct (fold_min_bounds r x lo) as [m1 m2].
  split; [|split].
  - apply m2. eapply Forall_impl; [|exact H]. intros v Hv. cbv beta in Hv.
    lia.
  - lia.
  - apply M2. eapply Forall_impl; [|exact H]. intros v Hv. cbv beta in Hv.
    lia.
Qed.

(** ** Ranges of the band depths *)

Lemma nchoose2_pos n : (2 <= n)%Z -> (0 < nchoose2 n)%Q.
Proof.
  intro H. unfold nchoose2.
  assert (0 < inject_Z (n * (n - 1)))%Q.
  { change 0%Q with (inject_Z 0). rewrite <- Zlt_Qlt. nia. }
  apply Qlt_shift_div_l; lra.
Qed.

(** A proportion of matched pairs [p], completed by the [n - 1] trivial
    bands and divided by the number of pairs, is a number of [0, 1]. *)
Lemma depth_unit_interval n (p : Q) :
  (2 <= n)%Z -> (0 <= p)%Q -> (2 * p <= inject_Z ((n - 1) * (n - 2)))%Q ->
  (0 <= (p + inject_Z n - 1) / nchoose2 n <= 1)%Q.
Proof.
  intros Hn Hp0 Hp.
  pose proof (nchoose2_pos Hn) as Hpos.
  set (B := inject_Z n) in *.
  assert (E1 : (inject_Z (n - 1) == B - 1)%Q).
  { unfold B, Z.sub. rewrite inject_Z_plus. reflexivity. }
  assert (E2 : (inject_Z (n - 2) == B - 2)%Q).
  { unfold B, Z.sub. rewrite inject_Z_plus. reflexivity. }
  rewrite inject_Z_mult, E1, E2 in Hp.
  unfold nchoose2 in *. rewrite inject_Z_mult, E1 in *. fold B in Hpos |- *.
  split.
  - apply Qle_shift_div_l; [assumption|].
    assert (2 <= B)%Q; [|lra].
    unfold B. change 2%Q with (inject_Z 2). now rewrite <- Zle_Qle.
  - apply Qle_shift_div_r; [assumption|].
    assert (E : (1 * (B * (B - 1) / 2) == B * (B - 1) * (1 # 2))%Q)
      by field.
    rewrite E. lra.
Qed.

Lemma products_of_ranks n a b :
  (2 <= n)%Z -> (0 <= a)%Z -> (0 <= b)%Z -> (a + b <= n - 1)%Z ->
  (0 <= a * b)%Z /\ (2 * (a * b) <= (n - 1) * (n - 2))%Z.
Proof.
  intros Hn Ha Hb Hab. split; [nia|].
  assert (0 <= a * (a - 1))%Z by nia.
  assert (0 <= b * (b - 1))%Z by nia.
  assert ((a + b) * (a + b - 1) <= (n - 1) * (n - 2))%Z by nia.
  nia.
Qed.

Lemma rank_rows fd :
  grid_wf fd = true -> ndim_image fd = 1 ->
  exists ranks,
    _rank_samples fd = Ok ranks
    /\ length ranks = nsamples fd
    /\ Forall (fun row =>
                 length row = grid_size fd
                 /\ Forall (fun r => (1 <= r <= Z.of_nat (nsamples fd))%Z)
                      row) ranks.
Proof.
  intros Hwf Him.
  destruct (rank_samples_ok fd Hwf Him) as (ranks & E & Hn & HP & H).
  exists ranks. split; [exact E|]. split; [exact Hn|].
  apply Forall_forall. intros row Hrow.
  rewrite Forall_forall in HP. split; [now apply HP|].
  destruct (In_nth _ _ [] Hrow) as [i [Hi Hirow]]. rewrite Hn in Hi.
  apply Forall_forall. intros r Hr.
  destruct (In_nth _ _ 0%Z Hr) as [t [Ht Htr]].
  rewrite (HP row Hrow) in Ht.
  specialize (H i t Hi Ht). rewrite Hirow, Htr in H. subst r.
  assert (Hin : In (nth i (column fd t) 0%Q) (column fd t))
    by (apply nth_In; now rewrite column_length).
  pose proof (count_le_pos _ _ Hin) as Hpos.
  pose proof (count_le_bound (nth i (column fd t) 0%Q) (column fd t)) as B.
  rewrite column_length in B. lia.
Qed.

Lemma band_depth_row_range n row :
  (2 <= n)%Z -> 1 <= length row ->
  Forall (fun r => (1 <= r <= n)%Z) row ->
  (0 <= band_depth_row n row <= 1)%Q.
Proof.
  intros Hn Hlen Hrow.
  destruct (amin_amax_bounds Hlen Hrow) as (H1 & H2 & H3).
  destruct (@products_of_ranks n (np.amin row - 1) (n - np.amax row))
    as [P1 P2]; try lia.
  unfold band_depth_row. apply depth_unit_interval; [assumption| |].
  - change 0%Q with (inject_Z 0). now rewrite <- Zle_Qle.
  - change 2%Q with (inject_Z 2). rewrite <- inject_Z_mult.
    now rewrite <- Zle_Qle.
Qed.

Lemma sumZ_match_bounds K l :
  Forall (fun m => (0 <= m /\ 2 * m <= K)%Z) l ->
  (0 <= np.sumZ l /\ 2 * np.sumZ l <= Z.of_nat (length l) * K)%Z.
Proof.
  induction 1 as [|x r Hx _ IH]; [unfold np.sumZ; simpl; lia|].
  rewrite sumZ_cons. cbn [length]. lia.
Qed.

Lemma match_row_bounds n row :
  (2 <= n)%Z -> Forall (fun r => (1 <= r <= n)%Z) row ->
  Forall (fun m => (0 <= m /\ 2 * m <= (n - 1) * (n - 2))%Z)
    (match_row n row).
Proof.
  intros Hn Hrow. unfold match_row. rewrite Forall_map.
  eapply Forall_impl; [|exact Hrow]. intros r Hr. cbv beta in Hr.
  apply products_of_ranks; lia.
Qed.

Lemma modified_band_depth_row_range n P row :
  (2 <= n)%Z -> length row = P -> 1 <= P ->
  Forall (fun r => (1 <= r <= n)%Z) row ->
  (0 <= modified_band_depth_row n P row <= 1)%Q.
Proof.
  intros Hn Hlen HP Hrow.
  destruct (sumZ_match_bounds (match_row_bounds Hn Hrow)) as [S0 S1].
  unfold match_row in S1 at 2. rewrite length_map, Hlen in S1.
  unfold modified_band_depth_row.
  assert (HPq : (0 < inject_Z (Z.of_nat P))%Q).
  { change 0%Q with (inject_Z 0). rewrite <- Zlt_Qlt. lia. }
  apply depth_unit_interval; [assumption| |].
  - apply Qle_shift_div_l; [assumption|]. rewrite Qmult_0_l.
    change 0%Q with (inject_Z 0). now rewrite <- Zle_Qle.
  - set (S := np.sumZ (match_row n row)) in *.
    assert (E : (2 * (inject_Z S / inject_Z (Z.of_nat P))
                 == inject_Z (2 * S) / inject_Z (Z.of_nat P))%Q).
    { rewrite inject_Z_mult. change (inject_Z 2) with 2%Q.
      field. lra. }
    rewrite E. apply Qle_shift_div_r; [assumption|].
    rewrite <- inject_Z_mult, <- Zle_Qle. lia.
Qed.

(** ** Mean of the pointwise modified band depth *)



Lemma Forall2_map_same {A B C : Type} (P : B -> C -> Prop) (f : A -> B)
    (g : A -> C) (l : list A) :
  Forall (fun x => P (f x) (g x)) l -> Forall2 P (map f l) (map g l).
Proof. induction 1; simpl; constructor; assumption. Qed.



(** ** Reordering the samples *)

Lemma is_permutation_spec perm n :
  is_permutation perm n = true -> Permutation perm (seq 0 n).
Proof.
  unfold is_permutation. rewrite andb_true_iff, Nat.eqb_eq, forallb_forall.
  intros [Hlen Hall]. symmetry.
  apply NoDup_Permutation_bis.
  - apply seq_NoDup.
  - rewrite length_seq. lia.
  - intros i Hi. specialize (Hall i Hi).
    apply existsb_exists in Hall. destruct Hall as [j [Hj Hij]].
    apply Nat.eqb_eq in Hij. now subst j.
Qed.

Lemma map_nth_seq {A : Type} (d : A) (l : list A) :
  map (fun i => nth i l d) (seq 0 (length l)) = l.
Proof.
  apply nth_ext with (d := d) (d' := d).
  - now rewrite length_map, length_seq.
  - intros i Hi. rewrite length_map, length_seq in Hi.
    rewrite nth_map_in with (d' := 0) by now rewrite length_seq.
    now rewrite seq_nth.
Qed.

Lemma take_perm {A : Type} (d : A) (l : list A) perm :
  Permutation perm (seq 0 (length l)) -> Permutation (np.take d l perm) l.
Proof.
  intro H. unfold np.take.
  transitivity (map (fun i => nth i l d) (seq 0 (length l))).
  - now apply Permutation_map.
  - now rewrite map_nth_seq.
Qed.

Lemma map_take {A B : Type} (f : A -> B) (dA : A) (dB : B) (l : list A)
    idx :
  Forall (fun j => j < length l) idx ->
  map f (np.take dA l idx) = np.take dB (map f l) idx.
Proof.
  intro H. unfold np.take. rewrite map_map. apply map_ext_in. intros j Hj.
  rewrite nth_map_in with (d' := dA); [reflexivity|].
  rewrite Forall_forall in H. now apply H.
Qed.

Section Permuted.

Variable fd : FDataGrid.
Variable perm : list nat.
Hypothesis Hwf : grid_wf fd = true.
Hypothesis Him : ndim_image fd = 1.
Hypothesis Hperm : Permutation perm (seq 0 (nsamples fd)).

Let fd' := permute_samples perm fd.

Lemma perm_bound j : In j perm -> j < nsamples fd.
Proof using Hperm.
  clear Hwf Him. intro H. eapply Permutation_in in H; [|exact Hperm].
  apply in_seq in H. lia.
Qed.

Lemma perm_length : length perm = nsamples fd.
Proof. now rewrite (Permutation_length Hperm), length_seq. Qed.

Lemma permuted_nsamples : nsamples fd' = nsamples fd.
Proof.
  unfold nsamples at 1, fd', permute_samples. cbn [data_matrix].
  rewrite take_length. apply perm_length.
Qed.

Lemma permuted_grid_size : grid_size fd' = grid_size fd.
Proof. reflexivity. Qed.

Lemma permuted_samples :
  Forall (fun s => In s (data_matrix fd)) (data_matrix fd').
Proof.
  unfold fd', permute_samples, np.take. cbn [data_matrix].
  rewrite Forall_map. apply Forall_forall. intros j Hj.
  apply nth_In. now apply perm_bound.
Qed.

Lemma permuted_ndim_image : ndim_image fd' = ndim_image fd.
Proof.
  destruct (grid_wf_spec fd Hwf) as (Hn & _ & _ & _ & Hdm & _).
  pose proof (grid_size_pos fd Hwf) as Hsz.
  pose proof permuted_samples as Hs. pose proof permuted_nsamples as Hn'.
  unfold ndim_image at 1. unfold nsamples in Hn'.
  destruct (data_matrix fd') as [|s r]; [simpl in Hn'; unfold nsamples in *; lia|].
  inversion Hs as [|? ? Hin _]; subst.
  rewrite Forall_forall in Hdm. destruct (Hdm s Hin) as [Hl Hv].
  cbn [hd]. destruct s as [|v s]; [simpl in Hl; lia|].
  cbn [hd]. now inversion Hv.
Qed.

Lemma permuted_wf : grid_wf fd' = true.
Proof.
  pose proof Hwf as H. unfold grid_wf in H |- *.
  rewrite !andb_true_iff in H |- *.
  destruct H as [[[[[Hn Hd] Hi] Hax] Hdm] Hr].
  rewrite permuted_nsamples, permuted_ndim_image.
  repeat split; try assumption.
  apply forallb_forall. intros s Hs.
  pose proof permuted_samples as HP. rewrite Forall_forall in HP.
  rewrite forallb_forall in Hdm. now apply Hdm, HP.
Qed.

Lemma permuted_column t :
  column fd' t = np.take 0%Q (column fd t) perm.
Proof.
  unfold column, fd', permute_samples, np.take. cbn [data_matrix].
  rewrite map_map. apply map_ext_in. intros j Hj.
  rewrite nth_map_in with (d' := []); [reflexivity|].
  now apply perm_bound.
Qed.

(** The ranks of the reordered grid are the reordered ranks. *)
Lemma permuted_ranks :
  exists ranks,
    _rank_samples fd = Ok ranks
    /\ _rank_samples fd' = Ok (np.take [] ranks perm)
    /\ length ranks = nsamples fd.
Proof.
  destruct (rank_samples_ok fd Hwf Him) as (ranks & E & Hn & HP & H).
  destruct (rank_samples_ok fd' permuted_wf)
    as (ranks' & E' & Hn' & HP' & H').
  { now rewrite permuted_ndim_image. }
  exists ranks. split; [exact E|]. split; [|exact Hn].
  rewrite E'. f_equal.
  rewrite permuted_nsamples in Hn'.
  apply nth_ext with (d := []) (d' := []).
  { now rewrite take_length, perm_length. }
  intros k Hk. rewrite Hn' in Hk.
  assert (Hpk : nth k perm 0 < nsamples fd).
  { apply perm_bound, nth_In. now rewrite perm_length. }
  rewrite take_nth by now rewrite perm_length.
  rewrite Forall_forall in HP, HP'.
  apply nth_ext with (d := 0%Z) (d' := 0%Z).
  { rewrite HP' by (apply nth_In; rewrite Hn'; lia).
    rewrite HP by (apply nth_In; lia). reflexivity. }
  intros t Ht. rewrite HP' in Ht by (apply nth_In; rewrite Hn'; lia).
  rewrite permuted_grid_size in Ht.
  rewrite H' by (rewrite ?permuted_nsamples; assumption).
  rewrite H by assumption.
  rewrite permuted_column.
  rewrite take_nth by now rewrite perm_length.
  f_equal. apply count_le_perm, take_perm.
  now rewrite column_length.
Qed.

End Permuted.

(** C8: reordering the samples of a valid grid reorders the band depths and
    the modified band depths in the same way, values unchanged: when sample
    [k] of the reordered grid is sample [perm[k]] of [fd], entry [k] of
    either depth array of the reordered grid is entry [perm[k]] of the depth
    array of [fd]; that is, the sample moved to position [p(i)] keeps the
    depth it had at position [i]. *)
Theorem depth_permutation_equivariant (fd : FDataGrid) (perm : list nat) :
  grid_wf fd = true -> 2 <= nsamples fd -> ndim_image fd = 1 ->
  is_permutation perm (nsamples fd) = true ->
  exists bd mbd,
    band_depth fd false = Ok (Depth bd)
    /\ band_depth (permute_samples perm fd) false
       = Ok (Depth (np.take 0%Q bd perm))
    /\ modified_band_depth fd false = Ok (Depth mbd)
    /\ modified_band_depth (permute_samples perm fd) false
       = Ok (Depth (np.take 0%Q mbd perm)).
Proof.
  intros Hwf _ Him Hp. apply is_permutation_spec in Hp.
  destruct (@permuted_ranks fd perm Hwf Him Hp) as (ranks & E & E' & Hn).
  assert (Hb : Forall (fun j => j < length ranks) perm).
  { apply Forall_forall. intros j Hj. rewrite Hn.
    now apply (@perm_bound fd perm Hp). }
  rewrite (band_depth_unfold fd false E).
  rewrite (band_depth_unfold _ false E').
  rewrite (modified_band_depth_unfold fd false E).
  rewrite (modified_band_depth_unfold _ false E').
  rewrite (@permuted_nsamples fd perm Hp), (@permuted_grid_size fd perm).
  do 2 eexists. split; [reflexivity|].
  split; [now rewrite (@map_take _ _ _ [] 0%Q _ _ Hb)|].
  split; [reflexivity|].
  now rewrite (@map_take _ _ _ [] 0%Q _ _ Hb).
Qed.

Lemma depth_permutation_equivariant_witness :
  grid_wf reference_grid = true /\ 2 <= nsamples reference_grid
  /\ ndim_image reference_grid = 1
  /\ is_permutation [2; 0; 3; 1] (nsamples reference_grid) = true
  /\ exists bd mbd,
       band_depth reference_grid false = Ok (Depth bd)
       /\ band_depth (permute_samples [2; 0; 3; 1] reference_grid) false
          = Ok (Depth (np.take 0%Q bd [2; 0; 3; 1]))
       /\ modified_band_depth reference_grid false = Ok (Depth mbd)
       /\ modified_band_depth (permute_samples [2; 0; 3; 1] reference_grid)
            false
          = Ok (Depth (np.take 0%Q mbd [2; 0; 3; 1])).
Proof.
  split; [reflexivity|]. split; [vm_compute; lia|]. split; [reflexivity|].
  split; [reflexivity|].
  apply (depth_permutation_equivariant reference_grid [2; 0; 3; 1]);
    [reflexivity | vm_compute; lia | reflexivity | reflexivity].
Defined.

(** ** Ranges of the depths *)

Lemma univariate_depth_range v col :
  1 <= length col -> ((1 # 2) <= univariate_depth v col <= 1)%Q.
Proof.
  intro Hlen. unfold univariate_depth.
  pose proof (count_le_bound v col) as Hc.
  set (c := count_le v col) in *.
  assert (Hl : (0 < inject_Z (Z.of_nat (length col)))%Q).
  { change 0%Q with (inject_Z 0). rewrite <- Zlt_Qlt. lia. }
  assert (HF : (0 <= inject_Z (Z.of_nat c)
                     / inject_Z (Z.of_nat (length col)) <= 1)%Q).
  { split.
    - apply Qle_shift_div_l; [assumption|]. rewrite Qmult_0_l.
      change 0%Q with (inject_Z 0). rewrite <- Zle_Qle. lia.
    - apply Qle_shift_div_r; [assumption|]. rewrite Qmult_1_l.
      rewrite <- Zle_Qle. lia. }
  set (F := (inject_Z (Z.of_nat c) / inject_Z (Z.of_nat (length col)))%Q)
    in *.
  pose proof (Qabs_nonneg ((1 # 2) - F)) as A0.
  assert (A1 : (Qabs ((1 # 2) - F) <= 1 # 2)%Q).
  { apply Qabs_Qle_condition. split; lra. }
  lra.
Qed.

Lemma single_axis fd :
  ndim_domain fd = 1 ->
  sample_points fd = [nth 0 (sample_points fd) []]
  /\ grid_size fd = length (nth 0 (sample_points fd) []).
Proof.
  unfold ndim_domain, grid_size. intro H.
  destruct (sample_points fd) as [|x [|x' r]]; simpl in H; try lia.
  split; [reflexivity|]. simpl. lia.
Qed.

Lemma Forall2_nth {A B : Type} (P : A -> B -> Prop) l l' t d d' :
  Forall2 P l l' -> t < length l -> P (nth t l d) (nth t l' d').
Proof.
  intro H. revert t. induction H as [|a b l l' Hab _ IH]; intros [|t] Ht;
    simpl in *; try lia; [assumption|]. apply IH. lia.
Qed.

(** What [fraiman_muniz_depth] computes on a grid with one domain axis and
    a scalar image. *)
Lemma fraiman_muniz_unfold fd :
  ndim_domain fd = 1 -> ndim_image fd = 1 ->
  exists pw,
    length pw = nsamples fd
    /\ (forall i t, i < nsamples fd -> t < grid_size fd ->
          length (nth i pw []) = grid_size fd
          /\ nth t (nth i pw []) 0%Q
             = univariate_depth (value fd i t) (column fd t))
    /\ forall pointwise,
         let x := nth 0 (sample_points fd) [] in
         let L := (snd (nth 0 (domain_range fd) (0, 0))
                   - fst (nth 0 (domain_range fd) (0, 0)))%Q in
         let depth := map (fun y => (scipy.simps y x / L)%Q) pw in
         fraiman_muniz_depth fd pointwise
         = Ok (if pointwise then DepthPointwise depth pw else Depth depth).
Proof.
  intros Hdom Him.
  destruct (single_axis fd Hdom) as [_ Hsz].
  destruct (fraiman_muniz_rows fd
              (seq 0 (length (nth 0 (sample_points fd) []))))
    as (rows & E & Hrows).
  exists (np.transpose rows (nsamples fd)).
  split; [unfold np.transpose; now rewrite length_map, length_seq|].
  split.
  - intros i t Hi Ht. rewrite Hsz in *.
    assert (Hlen : length rows = length (nth 0 (sample_points fd) [])).
    { rewrite <- (Forall2_length Hrows). apply length_seq. }
    unfold np.transpose.
    rewrite nth_map_in with (d' := 0) by now rewrite length_seq.
    rewrite seq_nth by assumption. cbn [Nat.add].
    split; [now rewrite length_map|].
    rewrite nth_map_in with (d' := []) by lia.
    pose proof (@Forall2_nth _ _ _ _ _ t 0 [] Hrows) as Ht'.
    rewrite length_seq, seq_nth in Ht' by assumption.
    destruct (Ht' Ht) as [_ Hv]. now apply Hv.
  - intros pointwise. cbv zeta. unfold fraiman_muniz_depth.
    rewrite Hdom, Him. cbn [Nat.ltb Nat.leb orb]. rewrite E. cbn [bind].
    destruct pointwise; reflexivity.
Qed.

Lemma band_depths_range fd pointwise :
  grid_wf fd = true -> 2 <= nsamples fd -> ndim_image fd = 1 ->
  depths_within 0 1 (band_depth fd pointwise)
  /\ depths_within 0 1 (modified_band_depth fd pointwise).
Proof.
  intros Hwf Hn Him.
  destruct (rank_rows fd Hwf Him) as (ranks & E & _ & Hrows).
  pose proof (grid_size_pos fd Hwf) as HP.
  rewrite (band_depth_unfold fd pointwise E).
  rewrite (modified_band_depth_unfold fd pointwise E).
  unfold depths_within. split.
  - eexists. split; [reflexivity|].
    assert (F : Forall (fun v => (0 <= v <= 1)%Q)
                  (map (band_depth_row (Z.of_nat (nsamples fd))) ranks)).
    { rewrite Forall_map. eapply Forall_impl; [|exact Hrows].
      intros row [Hl Hr]. apply band_depth_row_range; try lia; assumption. }
    destruct pointwise; exact F.
  - eexists. split; [reflexivity|].
    assert (F : Forall (fun v => (0 <= v <= 1)%Q)
                  (map (modified_band_depth_row (Z.of_nat (nsamples fd))
                          (grid_size fd)) ranks)).
    { rewrite Forall_map. eapply Forall_impl; [|exact Hrows].
      intros row [Hl Hr].
      apply modified_band_depth_row_range; try lia; assumption. }
    destruct pointwise; exact F.
Qed.

(** C5 (as amended): on a valid grid every band depth and every modified
    band depth lies in [0, 1]; when the domain has one axis,
    [fraiman_muniz_depth] returns one depth per sample together with a
    pointwise array of one row of grid-size entries per sample, and every
    pointwise Fraiman-Muniz depth lies in [1/2, 1], whatever the spacing of
    the coordinates.  Nothing is stated on the integrated depth: the
    quadrature that produces it neither keeps it in [1/2, 1] on unevenly
    spaced coordinates nor, once rounded, on evenly spaced ones. *)
Theorem depth_ranges (fd : FDataGrid) (pointwise : bool) :
  grid_wf fd = true -> 2 <= nsamples fd -> ndim_image fd = 1 ->
  depths_within 0 1 (band_depth fd pointwise)
  /\ depths_within 0 1 (modified_band_depth fd pointwise)
  /\ (ndim_domain fd = 1 ->
      pointwise_depths_within (1 # 2) 1 (nsamples fd) (grid_size fd)
        (fraiman_muniz_depth fd true)).
Proof.
  intros Hwf Hn Him.
  destruct (band_depths_range fd pointwise Hwf Hn Him) as [Hb Hm].
  split; [exact Hb|]. split; [exact Hm|].
  intro Hdom.
  pose proof (grid_size_pos fd Hwf) as HP.
  destruct (fraiman_muniz_unfold fd Hdom Him) as (pw & Hlen & Hpw & Hfm).
  rewrite (Hfm true). cbv zeta.
  do 2 eexists. split; [reflexivity|].
  split; [now rewrite length_map|]. split; [exact Hlen|].
  apply Forall_forall. intros row Hrow.
  destruct (In_nth _ _ [] Hrow) as (i & Hi & <-). rewrite Hlen in Hi.
  destruct (Hpw i 0 Hi ltac:(lia)) as [Hl _].
  split; [exact Hl|].
  apply Forall_forall. intros v Hv.
  destruct (In_nth _ _ 0%Q Hv) as (t & Ht & <-). rewrite Hl in Ht.
  destruct (Hpw i t Hi Ht) as [_ ->].
  apply univariate_depth_range. rewrite column_length. lia.
Qed.

Lemma depth_ranges_witness :
  grid_wf skewed_grid = true /\ 2 <= nsamples skewed_grid
  /\ ndim_image skewed_grid = 1 /\ ndim_domain skewed_grid = 1
  /\ depths_within 0 1 (band_depth skewed_grid false)
  /\ depths_within 0 1 (modified_band_depth skewed_grid false)
  /\ pointwise_depths_within (1 # 2) 1 (nsamples skewed_grid)
       (grid_size skewed_grid) (fraiman_muniz_depth skewed_grid true).
Proof.
  split; [reflexivity|]. split; [vm_compute; lia|]. split; [reflexivity|].
  split; [reflexivity|].
  destruct (depth_ranges skewed_grid false) as (Hb & Hm & Hf);
    [reflexivity | vm_compute; lia | reflexivity |].
  split; [exact Hb|]. split; [exact Hm|].
  apply Hf; reflexivity.
Defined.

(** C5 (as stated) fails: on the unevenly spaced coordinates 0, 1, 4 the
    quadrature has a negative weight, and the Fraiman-Muniz depth of the
    first curve of [skewed_grid] is 5/12, below 1/2. *)
Lemma fraiman_muniz_depth_below_half :
  ~ (forall fd pointwise,
       grid_wf fd = true -> 2 <= nsamples fd -> ndim_image fd = 1 ->
       depths_within 0 1 (band_depth fd pointwise)
       /\ depths_within 0 1 (modified_band_depth fd pointwise)
       /\ (ndim_domain fd = 1 ->
           depths_within (1 # 2) 1 (fraiman_muniz_depth fd pointwise))).
Proof.
  intro H.
  destruct (H skewed_grid false) as (_ & _ & Hf);
    [reflexivity | vm_compute; lia | reflexivity |].
  destruct (Hf eq_refl) as (out & E & F).
  vm_compute in E. injection E as <-. cbn [depth_values] in F.
  inversion F as [|? ? [Hlo _] _]. vm_compute in Hlo. now apply Hlo.
Qed.

(** ** The reference data *)

(** The outputs shown in the docstrings of depth.py. *)
Lemma rank_samples_docstring :
  _rank_samples reference_grid
  = Ok [[4; 4; 4; 4; 4; 4]; [3; 3; 3; 3; 3; 3];
        [1; 1; 2; 2; 2; 2]; [2; 2; 2; 1; 1; 1]]%Z
  /\ grid_wf surface_grid = true
  /\ _rank_samples surface_grid
     = Ok [[1; 2; 1; 2; 1; 2]; [2; 1; 2; 1; 2; 1]]%Z.
Proof. repeat split; vm_compute; reflexivity. Qed.

Lemma pointwise_docstrings :
  exists d pw d' pw',
    modified_band_depth reference_grid true = Ok (DepthPointwise d pw)
    /\ fraiman_muniz_depth reference_grid true = Ok (DepthPointwise d' pw')
    /\ Forall2 (Forall2 Qeq) pw
         [[1 # 2; 1 # 2; 1 # 2; 1 # 2; 1 # 2; 1 # 2];
          [5 # 6; 5 # 6; 5 # 6; 5 # 6; 5 # 6; 5 # 6];
          [1 # 2; 1 # 2; 5 # 6; 5 # 6; 5 # 6; 5 # 6];
          [5 # 6; 5 # 6; 5 # 6; 1 # 2; 1 # 2; 1 # 2]]%Q
    /\ Forall2 (Forall2 Qeq) pw'
         [[1 # 2; 1 # 2; 1 # 2; 1 # 2; 1 # 2; 1 # 2];
          [3 # 4; 3 # 4; 3 # 4; 3 # 4; 3 # 4; 3 # 4];
          [3 # 4; 3 # 4; 1; 1; 1; 1];
          [1; 1; 1; 3 # 4; 3 # 4; 3 # 4]]%Q.
Proof.
  do 4 eexists.
  split; [vm_compute; reflexivity|].
  split; [vm_compute; reflexivity|].
  split;
    repeat (constructor;
            try (apply Qeq_bool_iff; vm_compute; reflexivity)).
Qed.

(** C1: on the reference grid the three depths are, in sample order,
    [1/2, 5/6, 1/2, 1/2], [1/2, 5/6, 13/18, 2/3] and
    [1/2, 3/4, 37/40, 7/8]: within 0.00005 of [0.5, 0.8333, 0.5, 0.5],
    [0.5, 0.8333, 0.7222, 0.6667] and [0.5, 0.75, 0.925, 0.875]. *)
Theorem reference_grid_depths :
  exists bd mbd fm,
    band_depth reference_grid false = Ok (Depth bd)
    /\ modified_band_depth reference_grid false = Ok (Depth mbd)
    /\ fraiman_muniz_depth reference_grid false = Ok (Depth fm)
    /\ Forall2 Qeq bd [1 # 2; 5 # 6; 1 # 2; 1 # 2]%Q
    /\ Forall2 Qeq mbd [1 # 2; 5 # 6; 13 # 18; 2 # 3]%Q
    /\ Forall2 Qeq fm [1 # 2; 3 # 4; 37 # 40; 7 # 8]%Q
    /\ close_to 0.00005 bd [0.5; 0.8333; 0.5; 0.5]%Q
    /\ close_to 0.00005 mbd [0.5; 0.8333; 0.7222; 0.6667]%Q
    /\ close_to 0.00005 fm [0.5; 0.75; 0.925; 0.875]%Q.
Proof.
  do 3 eexists.
  split; [vm_compute; reflexivity|].
  split; [vm_compute; reflexivity|].
  split; [vm_compute; reflexivity|].
  unfold close_to.
  repeat split;
    repeat (constructor;
            try (apply Qeq_bool_iff; vm_compute; reflexivity);
            try (apply Qle_bool_iff; vm_compute; reflexivity)).
Qed.

(** ** Identical samples *)

Lemma count_le_repeat v n : count_le v (repeat v n) = n.
Proof.
  rewrite count_le_all; [apply repeat_length|].
  apply Forall_forall. intros w Hw. apply repeat_spec in Hw. subst w.
  apply Qle_refl.
Qed.

Lemma two_over_n n (z : Z) :
  (2 <= n)%Z -> z = 0%Z ->
  ((inject_Z z + inject_Z n - 1) / nchoose2 n == 2 / inject_Z n)%Q.
Proof.
  intros Hn ->. unfold nchoose2.
  assert (HB : (2 <= inject_Z n)%Q).
  { change 2%Q with (inject_Z 2). now rewrite <- Zle_Qle. }
  rewrite inject_Z_mult. unfold Z.sub. rewrite inject_Z_plus.
  change (inject_Z (- (1))) with (- (1))%Q. change (inject_Z 0) with 0%Q.
  set (B := inject_Z n) in *. clearbody B. field. split; lra.
Qed.

(** With [n] identical samples every rank is [n], and both band depths of
    every sample are [2 / n]. *)
Lemma identical_samples_two_over_n fd s :
  grid_wf fd = true -> 2 <= nsamples fd -> ndim_image fd = 1 ->
  data_matrix fd = repeat s (nsamples fd) ->
  exists bd mbd,
    band_depth fd false = Ok (Depth bd)
    /\ modified_band_depth fd false = Ok (Depth mbd)
    /\ Forall (fun v => (v == 2 / inject_Z (Z.of_nat (nsamples fd)))%Q)
         (bd ++ mbd).
Proof.
  intros Hwf Hn Him Hdata.
  destruct (rank_samples_ok fd Hwf Him) as (ranks & E & Hlen & HP & H).
  pose proof (grid_size_pos fd Hwf) as Hsz.
  set (n := Z.of_nat (nsamples fd)) in *.
  assert (Hrows : Forall (fun row => length row = grid_size fd
                            /\ Forall (fun r => (n <= r <= n)%Z) row) ranks).
  { apply Forall_forall. intros row Hrow.
    rewrite Forall_forall in HP. split; [now apply HP|].
    destruct (In_nth _ _ [] Hrow) as [i [Hi Hirow]]. rewrite Hlen in Hi.
    apply Forall_forall. intros r Hr.
    destruct (In_nth _ _ 0%Z Hr) as [t [Ht Htr]].
    rewrite (HP row Hrow) in Ht.
    specialize (H i t Hi Ht). rewrite Hirow, Htr in H. subst r.
    unfold column. rewrite Hdata, map_repeat, nth_repeat_lt by assumption.
    rewrite count_le_repeat. unfold n. lia. }
  rewrite (band_depth_unfold fd false E).
  rewrite (modified_band_depth_unfold fd false E). fold n.
  do 2 eexists. split; [reflexivity|]. split; [reflexivity|].
  apply Forall_app. split; rewrite Forall_map;
    (eapply Forall_impl; [|exact Hrows]); intros row [Hl Hr].
  - destruct (@amin_amax_bounds n n row) as (A1 & A2 & A3);
      [lia | assumption |].
    unfold band_depth_row. apply two_over_n; [unfold n; lia|]. nia.
  - unfold modified_band_depth_row.
    assert (Hz : np.sumZ (match_row n row) = 0%Z).
    { assert (F : Forall (fun m => (0 <= m <= 0)%Z) (match_row n row)).
      { unfold match_row. rewrite Forall_map.
        eapply Forall_impl; [|exact Hr]. intros r Hrn. cbv beta in Hrn.
        nia. }
      apply sumZ_bounds in F. lia. }
    rewrite Hz.
    assert (E0 : (inject_Z 0 / inject_Z (Z.of_nat (grid_size fd))
                  == inject_Z 0)%Q).
    { change (inject_Z 0) with 0%Q. unfold Qdiv. ring. }
    rewrite E0. apply two_over_n; [unfold n; lia|reflexivity].
Qed.

(** C2 at three identical samples: both band depths of every sample of
    [identical_grid] are 2/3, not 1. *)
Theorem identical_samples_depths :
  grid_wf identical_grid = true /\ nsamples identical_grid = 3
  /\ ndim_image identical_grid = 1
  /\ exists bd mbd,
       band_depth identical_grid false = Ok (Depth bd)
       /\ modified_band_depth identical_grid false = Ok (Depth mbd)
       /\ Forall (fun v => (v == 2 # 3)%Q) bd
       /\ Forall (fun v => (v == 2 # 3)%Q) mbd
       /\ Forall (fun v => ~ (v == 1)%Q) (bd ++ mbd).
Proof.
  split; [reflexivity|]. split; [reflexivity|]. split; [reflexivity|].
  do 2 eexists.
  split; [vm_compute; reflexivity|].
  split; [vm_compute; reflexivity|].
  repeat split;
    repeat (constructor; try (apply Qeq_bool_iff; vm_compute; reflexivity));
    intro H; apply Qeq_bool_iff in H; vm_compute in H; discriminate H.
Qed.

(** * Further properties of depth.py *)

(** ** Band depth against modified band depth *)

Lemma fold_max_ge r x v :
  (v <= x)%Z \/ In v r -> (v <= fold_left Z.max r x)%Z.
Proof.
  revert x. induction r as [|y r IH]; intros x H; simpl in *.
  - destruct H; [assumption|contradiction].
  - apply IH. destruct H as [H|[H|H]]; [left; lia|left; lia|now right].
Qed.

Lemma fold_min_le r x v :
  (x <= v)%Z \/ In v r -> (fold_left Z.min r x <= v)%Z.
Proof.
  revert x. induction r as [|y r IH]; intros x H; simpl in *.
  - destruct H; [assumption|contradiction].
  - apply IH. destruct H as [H|[H|H]]; [left; lia|left; lia|now right].
Qed.

Lemma amin_amax_enclose row v :
  In v row -> (np.amin row <= v <= np.amax row)%Z.
Proof.
  intro H. destruct row as [|x r]; [contradiction|].
  cbn [np.amin np.amax]. split.
  - apply fold_min_le. destruct H; [left; lia|now right].
  - apply fold_max_ge. destruct H; [left; lia|now right].
Qed.

Lemma depth_mono n (p q : Q) :
  (2 <= n)%Z -> (p <= q)%Q ->
  ((p + inject_Z n - 1) / nchoose2 n <= (q + inject_Z n - 1) / nchoose2 n)%Q.
Proof.
  intros Hn Hpq. pose proof (nchoose2_pos Hn) as HC.
  apply Qle_shift_div_l; [assumption|].
  unfold Qdiv. rewrite <- Qmult_assoc, (Qmult_comm (/ nchoose2 n)).
  rewrite Qmult_inv_r by lra. lra.
Qed.

Lemma band_row_le_modified n P row :
  (2 <= n)%Z -> length row = P -> 1 <= P ->
  Forall (fun r => (1 <= r <= n)%Z) row ->
  (2 / inject_Z n <= band_depth_row n row
   /\ band_depth_row n row <= modified_band_depth_row n P row)%Q.
Proof.
  intros Hn Hlen HP Hrow.
  destruct (@amin_amax_bounds 1 n row) as (A1 & A2 & A3);
    [lia | assumption |].
  set (a := (np.amin row - 1)%Z). set (b := (n - np.amax row)%Z).
  assert (Hab : (0 <= a * b)%Z) by (unfold a, b; nia).
  assert (HPq : (0 < inject_Z (Z.of_nat P))%Q).
  { change 0%Q with (inject_Z 0). rewrite <- Zlt_Qlt. lia. }
  split.
  - rewrite <- (@two_over_n n 0 Hn eq_refl).
    unfold band_depth_row. fold a b. apply depth_mono; [assumption|].
    now rewrite <- Zle_Qle.
  - unfold band_depth_row, modified_band_depth_row. fold a b.
    apply depth_mono; [assumption|].
    apply Qle_shift_div_l; [assumption|].
    rewrite <- inject_Z_mult, <- Zle_Qle.
    assert (F : Forall (fun m => (a * b <= m <= n * n)%Z) (match_row n row)).
    { unfold match_row. rewrite Forall_map. apply Forall_forall.
      intros r Hr. pose proof (amin_amax_enclose row r Hr) as E.
      rewrite Forall_forall in Hrow. specialize (Hrow r Hr).
      unfold a, b. split; nia. }
    apply sumZ_bounds in F. unfold match_row in F at 1.
    rewrite length_map, Hlen in F. lia.
Qed.

(** X1: on a valid grid the band depth of every sample is at least
    [2 / n], the share of the [n - 1] bands the sample bounds itself, and at
    most its modified band depth. *)
Theorem band_depth_below_modified (fd : FDataGrid) :
  grid_wf fd = true -> 2 <= nsamples fd -> ndim_image fd = 1 ->
  exists bd mbd,
    band_depth fd false = Ok (Depth bd)
    /\ modified_band_depth fd false = Ok (Depth mbd)
    /\ Forall2 (fun b m =>
                  (2 / inject_Z (Z.of_nat (nsamples fd)) <= b /\ b <= m)%Q)
         bd mbd.
Proof.
  intros Hwf Hn Him.
  destruct (rank_rows fd Hwf Him) as (ranks & E & _ & Hrows).
  pose proof (grid_size_pos fd Hwf) as HP.
  rewrite (band_depth_unfold fd false E).
  rewrite (modified_band_depth_unfold fd false E).
  do 2 eexists. split; [reflexivity|]. split; [reflexivity|].
  apply Forall2_map_same. eapply Forall_impl; [|exact Hrows].
  intros row [Hl Hr]. apply band_row_le_modified; try assumption; lia.
Qed.

Lemma band_depth_below_modified_witness :
  grid_wf reference_grid = true /\ 2 <= nsamples reference_grid
  /\ ndim_image reference_grid = 1
  /\ exists bd mbd,
       band_depth reference_grid false = Ok (Depth bd)
       /\ modified_band_depth reference_grid false = Ok (Depth mbd)
       /\ Forall2 (fun b m =>
                     (2 / inject_Z (Z.of_nat (nsamples reference_grid)) <= b
                      /\ b <= m)%Q)
            bd mbd.
Proof.
  split; [reflexivity|]. split; [vm_compute; lia|]. split; [reflexivity|].
  apply (band_depth_below_modified reference_grid);
    [reflexivity | vm_compute; lia | reflexivity].
Defined.

(** ** Samples that bound all the others *)

Lemma count_le_app v l1 l2 :
  count_le v (l1 ++ l2) = count_le v l1 + count_le v l2.
Proof. unfold count_le. now rewrite filter_app, length_app. Qed.

Lemma count_le_single col i :
  i < length col ->
  (forall j, j < length col -> j <> i ->
     (nth i col 0 < nth j col 0)%Q) ->
  count_le (nth i col 0%Q) col = 1.
Proof.
  intros Hi Hlt.
  destruct (nth_split col 0%Q Hi) as (l1 & l2 & E & Hl1).
  remember (nth i col 0%Q) as v eqn:Hv. clear Hv. subst col.
  rewrite length_app in Hlt. cbn [length] in Hlt.
  assert (F1 : Forall (fun y => (v < y)%Q) l1).
  { apply Forall_forall. intros y Hy.
    destruct (In_nth _ _ 0%Q Hy) as [j [Hj Hnth]].
    specialize (Hlt j ltac:(lia) ltac:(lia)).
    rewrite app_nth1 in Hlt by assumption. now rewrite Hnth in Hlt. }
  assert (F2 : Forall (fun y => (v < y)%Q) l2).
  { apply Forall_forall. intros y Hy.
    destruct (In_nth _ _ 0%Q Hy) as [j [Hj Hnth]].
    specialize (Hlt (S (i + j)) ltac:(lia) ltac:(lia)).
    rewrite app_nth2 in Hlt by lia.
    replace (S (i + j) - length l1) with (S j) in Hlt by lia.
    cbn [nth] in Hlt. now rewrite Hnth in Hlt. }
  rewrite count_le_app, count_le_cons.
  rewrite (count_le_above F1), (count_le_above F2).
  assert (Qle_bool v v = true) as -> by (apply Qle_bool_iff; lra).
  reflexivity.
Qed.

Lemma upper_envelope_rank fd i t :
  upper_envelope fd i = true -> t < grid_size fd ->
  count_le (value fd i t) (column fd t) = nsamples fd.
Proof.
  unfold upper_envelope. rewrite forallb_forall. intros H Ht.
  specialize (H t ltac:(apply in_seq; lia)).
  rewrite forallb_forall in H.
  rewrite <- (column_length fd t). apply count_le_all.
  apply Forall_forall. intros w Hw. apply Qle_bool_iff. now apply H.
Qed.

Lemma strict_lower_envelope_rank fd i t :
  strict_lower_envelope fd i = true -> i < nsamples fd ->
  t < grid_size fd ->
  count_le (value fd i t) (column fd t) = 1.
Proof.
  unfold strict_lower_envelope. rewrite forallb_forall. intros H Hi Ht.
  specialize (H t ltac:(apply in_seq; lia)).
  rewrite forallb_forall in H.
  unfold value. rewrite <- column_nth by assumption.
  apply count_le_single; [now rewrite column_length|].
  intros j Hj Hne. rewrite column_length in Hj.
  specialize (H j ltac:(apply in_seq; lia)).
  apply orb_true_iff in H. destruct H as [H|H].
  - apply Nat.eqb_eq in H. contradiction.
  - rewrite !column_nth by assumption. fold (value fd i t) (value fd j t).
    unfold Qlt_bool in H. apply negb_true_iff in H.
    apply Qnot_le_lt. intro Hle. apply Qle_bool_iff in Hle. congruence.
Qed.

Lemma constant_row_depth n P row c :
  (2 <= n)%Z -> 1 <= length row -> c = n \/ c = 1%Z ->
  Forall (fun r => (c <= r <= c)%Z) row ->
  (band_depth_row n row == 2 / inject_Z n
   /\ modified_band_depth_row n P row == 2 / inject_Z n)%Q.
Proof.
  intros Hn Hlen Hc Hrow.
  destruct (@amin_amax_bounds c c row) as (A1 & A2 & A3);
    [lia | assumption |].
  split.
  - unfold band_depth_row. apply two_over_n; [assumption|].
    destruct Hc; nia.
  - unfold modified_band_depth_row.
    assert (Hz : np.sumZ (match_row n row) = 0%Z).
    { assert (F : Forall (fun m => (0 <= m <= 0)%Z) (match_row n row)).
      { unfold match_row. rewrite Forall_map.
        eapply Forall_impl; [|exact Hrow]. intros r Hr. cbv beta in Hr.
        destruct Hc; nia. }
      apply sumZ_bounds in F. lia. }
    rewrite Hz.
    assert (E0 : (inject_Z 0 / inject_Z (Z.of_nat P) == inject_Z 0)%Q).
    { change (inject_Z 0) with 0%Q. unfold Qdiv. ring. }
    rewrite E0. apply two_over_n; [assumption|reflexivity].
Qed.

(** X2: on a valid grid, a sample that holds the largest value at every
    grid point (ties allowed), or that lies strictly below every other
    sample at every grid point, has band depth and modified band depth
    exactly [2 / n], the least value either depth takes. *)
Theorem extremal_sample_depth (fd : FDataGrid) (i : nat) :
  grid_wf fd = true -> 2 <= nsamples fd -> ndim_image fd = 1 ->
  i < nsamples fd ->
  upper_envelope fd i || strict_lower_envelope fd i = true ->
  exists bd mbd,
    band_depth fd false = Ok (Depth bd)
    /\ modified_band_depth fd false = Ok (Depth mbd)
    /\ (nth i bd 0 == 2 / inject_Z (Z.of_nat (nsamples fd)))%Q
    /\ (nth i mbd 0 == 2 / inject_Z (Z.of_nat (nsamples fd)))%Q.
Proof.
  intros Hwf Hn Him Hi Hext.
  destruct (rank_samples_ok fd Hwf Him) as (ranks & E & Hlen & HP & H).
  pose proof (grid_size_pos fd Hwf) as Hsz.
  rewrite (band_depth_unfold fd false E).
  rewrite (modified_band_depth_unfold fd false E).
  do 2 eexists. split; [reflexivity|]. split; [reflexivity|].
  rewrite !nth_map_in with (d' := []) by lia.
  set (row := nth i ranks []).
  assert (Hrow : length row = grid_size fd).
  { rewrite Forall_forall in HP. apply HP, nth_In. lia. }
  set (c := if upper_envelope fd i then Z.of_nat (nsamples fd) else 1%Z).
  assert (Hc : Forall (fun r => (c <= r <= c)%Z) row).
  { apply Forall_forall. intros r Hr.
    destruct (In_nth _ _ 0%Z Hr) as [t [Ht Htr]]. rewrite Hrow in Ht.
    unfold row in Htr. rewrite (H i t Hi Ht), column_nth in Htr by assumption.
    fold (value fd i t) in Htr. subst r. unfold c.
    destruct (upper_envelope fd i) eqn:U.
    - rewrite (@upper_envelope_rank fd i t U Ht). lia.
    - cbn [orb] in Hext.
      rewrite (@strict_lower_envelope_rank fd i t Hext Hi Ht). lia. }
  apply constant_row_depth with (c := c); try lia; try assumption.
  unfold c. destruct (upper_envelope fd i); auto.
Qed.

Lemma extremal_sample_depth_witness :
  grid_wf reference_grid = true /\ 2 <= nsamples reference_grid
  /\ ndim_image reference_grid = 1 /\ 0 < nsamples reference_grid
  /\ upper_envelope reference_grid 0
     || strict_lower_envelope reference_grid 0 = true
  /\ exists bd mbd,
       band_depth reference_grid false = Ok (Depth bd)
       /\ modified_band_depth reference_grid false = Ok (Depth mbd)
       /\ (nth 0 bd 0 == 2 / inject_Z (Z.of_nat (nsamples reference_grid)))%Q
       /\ (nth 0 mbd 0
           == 2 / inject_Z (Z.of_nat (nsamples reference_grid)))%Q.
Proof.
  split; [reflexivity|]. split; [vm_compute; lia|]. split; [reflexivity|].
  split; [vm_compute; lia|]. split; [reflexivity|].
  apply (@extremal_sample_depth reference_grid 0);
    [reflexivity | vm_compute; lia | reflexivity | vm_compute; lia
     | reflexivity].
Defined.

(** ** The empirical distribution as a distribution function *)

Lemma count_le_mono a b l : (a <= b)%Q -> count_le a l <= count_le b l.
Proof.
  intro Hab. induction l as [|y r IH]; [reflexivity|].
  rewrite !count_le_cons.
  destruct (Qle_bool y a) eqn:Ea, (Qle_bool y b) eqn:Eb; try lia.
  apply Qle_bool_iff in Ea.
  assert (Qle_bool y b = true) by (apply Qle_bool_iff; lra). congruence.
Qed.

Lemma proportion_mono (a b n : nat) :
  1 <= n -> a <= b ->
  (inject_Z (Z.of_nat a) / inject_Z (Z.of_nat n)
   <= inject_Z (Z.of_nat b) / inject_Z (Z.of_nat n))%Q.
Proof.
  intros Hn Hab.
  assert (HN : (0 < inject_Z (Z.of_nat n))%Q).
  { change 0%Q with (inject_Z 0). rewrite <- Zlt_Qlt. lia. }
  apply Qle_shift_div_l; [assumption|].
  unfold Qdiv. rewrite <- Qmult_assoc, (Qmult_comm (/ _)).
  rewrite Qmult_inv_r by lra. rewrite Qmult_1_r, <- Zle_Qle. lia.
Qed.

Lemma proportion_full (n : nat) :
  1 <= n -> (inject_Z (Z.of_nat n) / inject_Z (Z.of_nat n) == 1)%Q.
Proof.
  intro Hn.
  assert (HN : (0 < inject_Z (Z.of_nat n))%Q).
  { change 0%Q with (inject_Z 0). rewrite <- Zlt_Qlt. lia. }
  field. lra.
Qed.

(** X3: on a one-dimensional array [_cumulative_distribution] returns
    values of a distribution function: an entry that is at most another
    gets at most its proportion, every proportion lies between [1 / n] and
    1, and a largest entry gets 1. *)
Theorem cumulative_distribution_monotone :
  forall x : list Q,
    exists out,
      _cumulative_distribution (mk_ndarray [length x] x)
      = Ok (mk_ndarray [length x] out)
      /\ distribution_function x out.
Proof.
  intro x.
  destruct (cumulative_distribution_ok x) as (out & E & Hl & Hv & _).
  exists out. split; [exact E|]. split; [|split].
  - intros i j Hi Hj Hij. rewrite !Hv by assumption.
    apply proportion_mono; [lia|]. now apply count_le_mono.
  - apply Forall_forall. intros v Hin.
    destruct (In_nth _ _ 0%Q Hin) as [i [Hi Hnth]]. rewrite Hl in Hi.
    rewrite <- Hnth, Hv by assumption.
    assert (Hpos : 1 <= count_le (nth i x 0%Q) x)
      by (apply count_le_pos, nth_In; assumption).
    pose proof (count_le_bound (nth i x 0%Q) x) as Hb.
    split.
    + change 1%Q with (inject_Z (Z.of_nat 1)) at 1.
      apply proportion_mono; lia.
    + rewrite <- (@proportion_full (length x)) by lia.
      apply proportion_mono; lia.
  - intros i Hi Htop. rewrite Hv by assumption.
    rewrite count_le_all; [apply proportion_full; lia|].
    apply Forall_forall. intros w Hw.
    destruct (In_nth _ _ 0%Q Hw) as [j [Hj Hnth]]. subst w. now apply Htop.
Qed.

(** ** The pointwise Fraiman-Muniz depth *)

Lemma univariate_depth_top v col :
  1 <= length col -> Forall (fun w => (w <= v)%Q) col ->
  (univariate_depth v col == 1 # 2)%Q.
Proof.
  intros Hlen Htop. unfold univariate_depth.
  rewrite (count_le_all Htop).
  assert (E : ((1 # 2) - inject_Z (Z.of_nat (length col))
                         / inject_Z (Z.of_nat (length col))
               == - (1 # 2))%Q).
  { rewrite (proportion_full Hlen). reflexivity. }
  rewrite E. reflexivity.
Qed.

(** X4: on a well-formed grid with one domain axis and a scalar image,
    whatever the spacing of its coordinates, [fraiman_muniz_depth] returns
    the same depth array with and without the pointwise flag, one depth per
    sample, and its pointwise array holds, for every sample and grid point,
    the univariate depth [1 - |1/2 - F|] of the sample's value, [F] being
    the proportion of samples at or below it there: a number of [1/2, 1],
    equal to 1/2 where the sample holds the largest value. *)
Theorem fraiman_muniz_pointwise (fd : FDataGrid) :
  grid_wf fd = true -> ndim_domain fd = 1 -> ndim_image fd = 1 ->
  exists depth pw,
    fraiman_muniz_depth fd true = Ok (DepthPointwise depth pw)
    /\ fraiman_muniz_depth fd false = Ok (Depth depth)
    /\ length depth = nsamples fd
    /\ pointwise_univariate fd pw.
Proof.
  intros Hwf Hdom Him.
  destruct (grid_wf_spec fd Hwf) as (Hn & _).
  destruct (fraiman_muniz_unfold fd Hdom Him) as (pw & Hlen & Hpw & Hfm).
  rewrite (Hfm true), (Hfm false). cbv zeta.
  do 2 eexists. split; [reflexivity|]. split; [reflexivity|].
  split; [now rewrite length_map|].
  split; [exact Hlen|].
  intros i t Hi Ht. destruct (Hpw i t Hi Ht) as [Hrow Hv].
  split; [exact Hrow|]. split; [exact Hv|]. rewrite Hv.
  split.
  - apply univariate_depth_range. rewrite column_length. lia.
  - intro Htop. apply univariate_depth_top.
    + rewrite column_length. lia.
    + apply Forall_forall. intros w Hw.
      destruct (In_nth _ _ 0%Q Hw) as [j [Hj Hnth]].
      rewrite column_length in Hj. rewrite column_nth in Hnth by assumption.
      subst w. now apply Htop.
Qed.

Lemma fraiman_muniz_pointwise_witness :
  grid_wf skewed_grid = true /\ ndim_domain skewed_grid = 1
  /\ ndim_image skewed_grid = 1
  /\ exists depth pw,
       fraiman_muniz_depth skewed_grid true = Ok (DepthPointwise depth pw)
       /\ fraiman_muniz_depth skewed_grid false = Ok (Depth depth)
       /\ length depth = nsamples skewed_grid
       /\ pointwise_univariate skewed_grid pw.
Proof.
  split; [reflexivity|]. split; [reflexivity|]. split; [reflexivity|].
  apply (fraiman_muniz_pointwise skewed_grid); reflexivity.
Defined.

(** ** Reordering the samples: Fraiman-Muniz depth *)

Lemma univariate_depth_perm v col col' :
  Permutation col' col ->
  univariate_depth v col' = univariate_depth v col.
Proof.
  intro H. unfold univariate_depth.
  now rewrite (count_le_perm v H), (Permutation_length H).
Qed.

(** X5: reordering the samples of a well-formed grid with one domain axis
    and a scalar image reorders its Fraiman-Muniz depths in the same way,
    values unchanged: when sample [k] of the reordered grid is sample
    [perm[k]] of [fd], entry [k] of its depth array is entry [perm[k]] of
    the depth array of [fd]. *)
Theorem fraiman_muniz_permutation_equivariant (fd : FDataGrid)
    (perm : list nat) :
  grid_wf fd = true -> ndim_domain fd = 1 -> ndim_image fd = 1 ->
  is_permutation perm (nsamples fd) = true ->
  exists depth,
    fraiman_muniz_depth fd false = Ok (Depth depth)
    /\ fraiman_muniz_depth (permute_samples perm fd) false
       = Ok (Depth (np.take 0%Q depth perm)).
Proof.
  intros Hwf Hdom Him Hp. apply is_permutation_spec in Hp.
  pose proof (@permuted_ndim_image fd perm Hwf Him Hp) as Him'.
  rewrite Him in Him'.
  pose proof (@permuted_nsamples fd perm Hp) as Hn'.
  pose proof (@perm_length fd perm Hp) as Hlp.
  destruct (fraiman_muniz_unfold fd Hdom Him) as (pw & Hlen & Hpw & Hfm).
  destruct (fraiman_muniz_unfold (permute_samples perm fd) Hdom Him')
    as (pw' & Hlen' & Hpw' & Hfm').
  rewrite (Hfm false), (Hfm' false). cbv zeta.
  eexists. split; [reflexivity|].
  assert (Hb : Forall (fun j => j < length pw) perm).
  { apply Forall_forall. intros j Hj. rewrite Hlen.
    now apply (@perm_bound fd perm Hp). }
  assert (Epw : pw' = np.take [] pw perm).
  { apply nth_ext with (d := []) (d' := []).
    { rewrite take_length. lia. }
    intros k Hk. rewrite Hlen', Hn' in Hk.
    assert (Hpk : nth k perm 0 < nsamples fd).
    { apply (@perm_bound fd perm Hp), nth_In. lia. }
    rewrite take_nth by lia.
    pose proof (grid_size_pos fd Hwf) as Hsz.
    apply nth_ext with (d := 0%Q) (d' := 0%Q).
    { destruct (Hpw' k 0) as [-> _]; [lia | exact Hsz |].
      destruct (Hpw (nth k perm 0) 0) as [-> _]; [lia | exact Hsz |].
      reflexivity. }
    intros t Ht.
    destruct (Hpw' k 0) as [Hl' _]; [lia | exact Hsz |].
    rewrite Hl' in Ht. change (grid_size (permute_samples perm fd))
      with (grid_size fd) in Ht.
    destruct (Hpw' k t) as [_ ->]; [lia | exact Ht |].
    destruct (Hpw (nth k perm 0) t) as [_ ->]; [lia | exact Ht |].
    rewrite (@permuted_column fd perm Hp).
    assert (Hcol : Permutation (np.take 0%Q (column fd t) perm)
                     (column fd t))
      by (apply take_perm; now rewrite column_length).
    rewrite (univariate_depth_perm _ Hcol).
    f_equal. unfold value, permute_samples. cbn [data_matrix].
    now rewrite take_nth by lia. }
  rewrite Epw. now rewrite (@map_take _ _ _ [] 0%Q _ _ Hb).
Qed.

Lemma fraiman_muniz_permutation_equivariant_witness :
  grid_wf reference_grid = true /\ ndim_domain reference_grid = 1
  /\ ndim_image reference_grid = 1
  /\ is_permutation [2; 0; 3; 1] (nsamples reference_grid) = true
  /\ exists depth,
       fraiman_muniz_depth reference_grid false = Ok (Depth depth)
       /\ fraiman_muniz_depth (permute_samples [2; 0; 3; 1] reference_grid)
            false
          = Ok (Depth (np.take 0%Q depth [2; 0; 3; 1])).
Proof.
  split; [reflexivity|]. split; [reflexivity|]. split; [reflexivity|].
  split; [reflexivity|].
  apply (@fraiman_muniz_permutation_equivariant reference_grid
           [2; 0; 3; 1]); reflexivity.
Defined.

(** ** Order-preserving changes of the values *)

Lemma mapM_ext {A B : Type} (f g : A -> result B) (l : list A) :
  (forall x, In x l -> f x = g x) -> mapM f l = mapM g l.
Proof.
  induction l as [|x r IH]; intro H; [reflexivity|].
  cbn [mapM]. rewrite (H x (or_introl eq_refl)).
  rewrite IH by (intros z Hz; apply H; now right). reflexivity.
Qed.

Lemma forallb_map {A B : Type} (P : B -> bool) (g : A -> B) (l : list A) :
  forallb P (map g l) = forallb (fun x => P (g x)) l.
Proof. induction l as [|x r IH]; simpl; [reflexivity|]. now rewrite IH. Qed.

Lemma forallb_pointwise {A : Type} (P P' : A -> bool) (l : list A) :
  (forall x, P x = P' x) -> forallb P l = forallb P' l.
Proof.
  intro H. induction l as [|x r IH]; simpl; [reflexivity|].
  now rewrite H, IH.
Qed.

Section OrderPreserving.

Variable f : Q -> Q.
Hypothesis f_order : forall a b, Qle_bool (f a) (f b) = Qle_bool a b.

Lemma count_le_map v col : count_le (f v) (map f col) = count_le v col.
Proof using f_order.
  induction col as [|y r IH]; [reflexivity|].
  cbn [map]. rewrite !count_le_cons, IH, f_order. reflexivity.
Qed.

Lemma map_values_ndim_image fd :
  ndim_image (map_values f fd) = ndim_image fd.
Proof using Type.
  unfold ndim_image, map_values. cbn [data_matrix].
  destruct (data_matrix fd) as [|[|p s] r]; try reflexivity.
  cbn [map hd]. apply length_map.
Qed.

Lemma map_values_nsamples fd : nsamples (map_values f fd) = nsamples fd.
Proof using Type. unfold nsamples, map_values. apply length_map. Qed.

Lemma map_values_wf fd : grid_wf (map_values f fd) = grid_wf fd.
Proof using Type.
  unfold grid_wf. rewrite map_values_nsamples, map_values_ndim_image.
  unfold ndim_domain. cbn [map_values sample_points domain_range data_matrix].
  change (grid_size (map_values f fd)) with (grid_size fd).
  do 2 f_equal. rewrite forallb_map. apply forallb_pointwise. intro s.
  rewrite length_map, forallb_map. f_equal. apply forallb_pointwise.
  intro v. now rewrite length_map.
Qed.

Lemma map_values_column fd t :
  grid_wf fd = true -> t < grid_size fd ->
  column (map_values f fd) t = map f (column fd t).
Proof using Type.
  intros Hwf Ht.
  destruct (grid_wf_spec fd Hwf) as (_ & _ & Hi & _ & Hdm & _).
  unfold column, map_values. cbn [data_matrix]. rewrite !map_map.
  apply map_ext_in. intros s Hs.
  rewrite Forall_forall in Hdm. destruct (Hdm s Hs) as [Hl Hv].
  rewrite nth_map_in with (d' := []) by lia.
  rewrite nth_map_in with (d' := 0%Q); [reflexivity|].
  rewrite Forall_forall in Hv. rewrite (Hv (nth t s [])); [lia|].
  apply nth_In. lia.
Qed.

Lemma map_values_ranks fd :
  grid_wf fd = true -> ndim_image fd = 1 ->
  _rank_samples (map_values f fd) = _rank_samples fd.
Proof using f_order.
  intros Hwf Him.
  destruct (rank_samples_ok fd Hwf Him) as (ranks & E & Hn & HP & H).
  destruct (rank_samples_ok (map_values f fd))
    as (ranks' & E' & Hn' & HP' & H');
    [now rewrite map_values_wf | now rewrite map_values_ndim_image |].
  rewrite E, E'. f_equal.
  rewrite map_values_nsamples in Hn', H'.
  change (grid_size (map_values f fd)) with (grid_size fd) in HP', H'.
  rewrite Forall_forall in HP, HP'.
  apply nth_ext with (d := []) (d' := []); [lia|].
  intros i Hi. rewrite Hn' in Hi.
  apply nth_ext with (d := 0%Z) (d' := 0%Z).
  { rewrite HP' by (apply nth_In; lia). rewrite HP by (apply nth_In; lia).
    reflexivity. }
  intros t Ht. rewrite HP' in Ht by (apply nth_In; lia).
  rewrite H', H by assumption.
  rewrite (map_values_column fd Hwf Ht).
  rewrite nth_map_in with (d' := 0%Q) by now rewrite column_length.
  now rewrite count_le_map.
Qed.

Lemma map_values_distribution c :
  _cumulative_distribution (mk_ndarray [length c] (map f c))
  = _cumulative_distribution (mk_ndarray [length c] c).
Proof using f_order.
  destruct (cumulative_distribution_ok c) as (out & E & Hl & Hv & _).
  destruct (cumulative_distribution_ok (map f c))
    as (out' & E' & Hl' & Hv' & _).
  rewrite length_map in E', Hl', Hv'. rewrite E, E'. do 2 f_equal.
  apply nth_ext with (d := 0%Q) (d' := 0%Q); [lia|].
  intros i Hi. rewrite Hl' in Hi. rewrite Hv', Hv by assumption.
  rewrite nth_map_in with (d' := 0%Q) by assumption.
  now rewrite count_le_map.
Qed.

Lemma map_values_fraiman_muniz fd pointwise :
  grid_wf fd = true ->
  fraiman_muniz_depth (map_values f fd) pointwise
  = fraiman_muniz_depth fd pointwise.
Proof using f_order.
  intro Hwf.
  destruct (grid_wf_spec fd Hwf) as (_ & Hd & _).
  unfold fraiman_muniz_depth.
  rewrite map_values_ndim_image, map_values_nsamples.
  change (ndim_domain (map_values f fd)) with (ndim_domain fd).
  change (sample_points (map_values f fd)) with (sample_points fd).
  change (domain_range (map_values f fd)) with (domain_range fd).
  destruct (Nat.ltb_spec 1 (ndim_domain fd)) as [|Hdom]; [reflexivity|].
  destruct (1 <? ndim_image fd); [reflexivity|]. cbn [orb].
  f_equal. apply mapM_ext. intros t Ht. apply in_seq in Ht.
  destruct (single_axis fd ltac:(lia)) as [_ Hsz].
  rewrite (map_values_column fd Hwf) by lia.
  rewrite <- (column_length fd t). now rewrite map_values_distribution.
Qed.

End OrderPreserving.

Lemma shift_order (c a b : Q) : Qle_bool (c + a) (c + b) = Qle_bool a b.
Proof.
  apply eq_true_iff_eq. rewrite !Qle_bool_iff. split; intro H; lra.
Qed.

(** X6: the depths depend on the sampled values only through their order
    at each grid point.  Replacing every value of a valid grid by its image
    under an order-preserving map (a change of offset or of unit) changes
    neither the rank array nor any of the three depths, pointwise arrays
    included. *)
Theorem order_preserving_invariance (f : Q -> Q) (fd : FDataGrid)
    (pointwise : bool) :
  (forall a b, Qle_bool (f a) (f b) = Qle_bool a b) ->
  grid_wf fd = true -> ndim_image fd = 1 ->
  _rank_samples (map_values f fd) = _rank_samples fd
  /\ band_depth (map_values f fd) pointwise = band_depth fd pointwise
  /\ modified_band_depth (map_values f fd) pointwise
     = modified_band_depth fd pointwise
  /\ fraiman_muniz_depth (map_values f fd) pointwise
     = fraiman_muniz_depth fd pointwise.
Proof.
  intros Hf Hwf Him.
  pose proof (@map_values_ranks f Hf fd Hwf Him) as Er.
  destruct (rank_samples_ok fd Hwf Him) as (ranks & E & _).
  assert (E' : _rank_samples (map_values f fd) = Ok ranks)
    by now rewrite Er.
  split; [exact Er|]. split; [|split].
  - rewrite (band_depth_unfold _ pointwise E').
    rewrite (band_depth_unfold fd pointwise E).
    now rewrite map_values_nsamples.
  - rewrite (modified_band_depth_unfold _ pointwise E').
    rewrite (modified_band_depth_unfold fd pointwise E).
    now rewrite map_values_nsamples.
  - now apply (@map_values_fraiman_muniz f Hf).
Qed.

Lemma order_preserving_invariance_witness :
  (forall a b, Qle_bool (1 + a) (1 + b) = Qle_bool a b)
  /\ grid_wf reference_grid = true /\ ndim_image reference_grid = 1
  /\ band_depth (map_values (Qplus 1) reference_grid) false
     = band_depth reference_grid false
  /\ fraiman_muniz_depth (map_values (Qplus 1) reference_grid) false
     = fraiman_muniz_depth reference_grid false.
Proof.
  split; [exact (shift_order 1)|]. split; [reflexivity|].
  split; [reflexivity|].
  destruct (@order_preserving_invariance (Qplus 1) reference_grid false
              (shift_order 1) eq_refl eq_refl) as (_ & Hb & _ & Hf).
  split; assumption.
Defined.

(** * Properties of _coefficients.py *)

Section CoefficientsProperties.

Context {representation_basis : BasisModule}.

(** X9: [coefficient_info_from_covariate] ends in exactly one of four ways,
    decided by the classes of its arguments alone.  It raises [ValueError]
    exactly when the covariate is neither an array nor an [FDataBasis];
    [IndexError] exactly when the covariate is an array with fewer than two
    dimensions and the response is not an [FDataBasis]; [TypeError] exactly
    when a basis that is neither [None] nor a [Basis] is given with an
    array covariate and an [FDataBasis] response, or when the covariate is
    an [FDataBasis] and the basis is missing or neither [None] nor a
    [Basis]; with an array covariate and a response that is not an
    [FDataBasis] the basis argument is not looked at. *)
Theorem coefficient_info_dispatch_outcome (X y : pyvalue)
    (basis : option pyvalue) :
  let r := coefficient_info_from_covariate X y basis in
  (r = Raises ValueError
   <-> is_ndarray X = false /\ is_fdatabasis X = false)
  /\ (r = Raises IndexError
      <-> is_ndarray X = true /\ is_fdatabasis y = false /\ ndim X < 2)
  /\ (r = Raises TypeError
      <-> (is_ndarray X = true /\ is_fdatabasis y = true
           /\ not_a_basis basis = true)
          \/ (is_fdatabasis X = true
              /\ (basis = None \/ not_a_basis basis = true)))
  /\ (is_ndarray X = true -> is_fdatabasis y = false ->
      r = coefficient_info_from_covariate X y None).
Proof.
  cbv zeta. unfold coefficient_info_from_covariate,
    _coefficient_info_from_covariate_ndarray,
    _coefficient_info_from_covariate_fdatabasis.
  destruct X as [|[[|n [|k sh]] d]|f|b|];
    destruct y as [|a'|f'|b'|];
    destruct basis as [[|a''|f''|b''|]|];
    cbn [is_ndarray is_fdatabasis not_a_basis ndim shape length];
    repeat split; intros;
    repeat match goal with
           | H : _ /\ _ |- _ => destruct H
           | H : _ \/ _ |- _ => destruct H
           end;
    try discriminate; try reflexivity; try lia; auto.
Qed.

(** X10: for a two-dimensional array covariate and a response that is not
    an [FDataBasis], the coefficient basis is the identity matrix with one
    row per column of the covariate, and the regression matrix of the
    covariate is the covariate itself: the design matrix has one column per
    coefficient.  A one-dimensional covariate, which [regression_matrix]
    would turn into a single row, is refused with [IndexError]. *)
Theorem ndarray_design_matrix (X : ndarray) (y : pyvalue)
    (basis : option pyvalue) :
  is_fdatabasis y = false ->
  (forall m k, shape X = [m; k] ->
     coefficient_info_from_covariate (PyNdarray X) y basis
     = Returns (CoefficientInfoNdarray (PyNdarray (identity k)) PyNone)
     /\ regression_matrix_ndarray X = X
     /\ nth 1 (shape (regression_matrix_ndarray X)) 0
        = nth 0 (shape (identity k)) 0
     /\ length (data (identity k)) = k * k)
  /\ (forall n, shape X = [n] ->
        coefficient_info_from_covariate (PyNdarray X) y basis
        = Raises IndexError
        /\ shape (regression_matrix_ndarray X) = [1; n]).
Proof.
  intro Hy. destruct X as [sh d]. cbn [shape]. split.
  - intros m k ->.
    split; [destruct y; try discriminate; reflexivity|].
    split; [reflexivity|]. split; [reflexivity|].
    unfold identity. cbn [data].
    rewrite (flat_map_constant_length (c := k)).
    + now rewrite length_seq.
    + intros i _. now rewrite length_map, length_seq.
  - intros n ->. split; [destruct y; try discriminate; reflexivity|].
    reflexivity.
Qed.

End CoefficientsProperties.

Lemma ndarray_design_matrix_witness :
  @is_fdatabasis plain_basis_module PyNone = false
  /\ @coefficient_info_from_covariate plain_basis_module
       (PyNdarray (mk_ndarray [3; 2] [1; 2; 3; 4; 5; 6]%Q)) PyNone None
     = Returns (CoefficientInfoNdarray (PyNdarray (identity 2)) PyNone)
  /\ @coefficient_info_from_covariate plain_basis_module
       (PyNdarray (mk_ndarray [3] [1; 2; 3]%Q)) PyNone None
     = Raises IndexError.
Proof.
  split; [reflexivity|]. split.
  - destruct (@ndarray_design_matrix plain_basis_module
                (mk_ndarray [3; 2] [1; 2; 3; 4; 5; 6]%Q) PyNone None
                eq_refl) as [H _].
    destruct (H 3 2 eq_refl) as [E _]. exact E.
  - destruct (@ndarray_design_matrix plain_basis_module
                (mk_ndarray [3] [1; 2; 3]%Q) PyNone None eq_refl)
      as [_ H].
    destruct (H 3 eq_refl) as [E _]. exact E.
Defined.

(** * Further properties of the band depths *)

(** X11: on a valid grid the pointwise array of [modified_band_depth] has
    one row of [grid_size] entries per sample; the entry of a sample at a
    grid point is [((n - r) * (r - 1) + n - 1) / C(n, 2)], where [r] is the
    number of samples whose value there is at most the sample's, and lies
    between [2 / n] and 1. *)
Theorem modified_band_depth_pointwise_array (fd : FDataGrid) :
  grid_wf fd = true -> 2 <= nsamples fd -> ndim_image fd = 1 ->
  exists depth pw,
    modified_band_depth fd true = Ok (DepthPointwise depth pw)
    /\ pointwise_band fd pw.
Proof.
  intros Hwf Hn Him.
  destruct (rank_samples_ok fd Hwf Him) as (ranks & E & Hlen & HP & H).
  rewrite (modified_band_depth_unfold fd true E).
  do 2 eexists. split; [reflexivity|].
  split; [now rewrite length_map|].
  intros i t Hi Ht. cbv zeta.
  rewrite nth_map_in with (d' := []) by lia.
  assert (Hrow : length (nth i ranks []) = grid_size fd).
  { rewrite Forall_forall in HP. apply HP, nth_In. lia. }
  unfold pointwise_row, match_row.
  split; [now rewrite !length_map|].
  rewrite map_map, nth_map_in with (d' := 0%Z) by lia.
  rewrite (H i t Hi Ht), column_nth by assumption. fold (value fd i t).
  split; [reflexivity|].
  set (c := count_le (value fd i t) (column fd t)).
  assert (Hc : 1 <= c <= nsamples fd).
  { unfold c. split.
    - apply count_le_pos. unfold value.
      rewrite <- column_nth by assumption. apply nth_In.
      now rewrite column_length.
    - rewrite <- (column_length fd t). apply count_le_bound. }
  set (n := Z.of_nat (nsamples fd)).
  destruct (@products_of_ranks n (n - Z.of_nat c) (Z.of_nat c - 1))
    as [P1 P2]; try (unfold n; lia).
  split.
  - rewrite <- (@two_over_n n 0 ltac:(unfold n; lia) eq_refl).
    apply depth_mono; [unfold n; lia|]. now rewrite <- Zle_Qle.
  - apply depth_unit_interval; [unfold n; lia | |].
    + change 0%Q with (inject_Z 0). now rewrite <- Zle_Qle.
    + change 2%Q with (inject_Z 2). rewrite <- inject_Z_mult.
      now rewrite <- Zle_Qle.
Qed.

Lemma modified_band_depth_pointwise_array_witness :
  grid_wf reference_grid = true /\ 2 <= nsamples reference_grid
  /\ ndim_image reference_grid = 1
  /\ exists depth pw,
       modified_band_depth reference_grid true
       = Ok (DepthPointwise depth pw)
       /\ pointwise_band reference_grid pw.
Proof.
  split; [reflexivity|]. split; [vm_compute; lia|]. split; [reflexivity|].
  apply (modified_band_depth_pointwise_array reference_grid);
    [reflexivity | vm_compute; lia | reflexivity].
Defined.

Lemma sumZ_constant c l :
  Forall (fun m => m = c) l -> np.sumZ l = (Z.of_nat (length l) * c)%Z.
Proof.
  intro H.
  assert (F : Forall (fun m => (c <= m <= c)%Z) l).
  { eapply Forall_impl; [|exact H]. intros m ->. lia. }
  apply sumZ_bounds in F. lia.
Qed.

(** X12: on a valid grid, a sample whose rank is the same at every grid
    point (its curve crosses no other) has equal band depth and modified
    band depth. *)
Theorem band_depths_agree_without_crossing (fd : FDataGrid) (i : nat) :
  grid_wf fd = true -> 2 <= nsamples fd -> ndim_image fd = 1 ->
  i < nsamples fd -> constant_rank fd i = true ->
  exists bd mbd,
    band_depth fd false = Ok (Depth bd)
    /\ modified_band_depth fd false = Ok (Depth mbd)
    /\ (nth i bd 0 == nth i mbd 0)%Q.
Proof.
  intros Hwf Hn Him Hi Hconst.
  destruct (rank_samples_ok fd Hwf Him) as (ranks & E & Hlen & HP & H).
  pose proof (grid_size_pos fd Hwf) as Hsz.
  rewrite (band_depth_unfold fd false E).
  rewrite (modified_band_depth_unfold fd false E).
  do 2 eexists. split; [reflexivity|]. split; [reflexivity|].
  rewrite !nth_map_in with (d' := []) by lia.
  set (row := nth i ranks []).
  assert (Hrow : length row = grid_size fd).
  { rewrite Forall_forall in HP. apply HP, nth_In. lia. }
  set (c := Z.of_nat (count_le (value fd i 0) (column fd 0))).
  assert (Hc : Forall (fun r => r = c) row).
  { apply Forall_forall. intros r Hr.
    destruct (In_nth _ _ 0%Z Hr) as [t [Ht Htr]]. rewrite Hrow in Ht.
    unfold row in Htr.
    rewrite (H i t Hi Ht), column_nth in Htr by assumption.
    fold (value fd i t) in Htr. subst r. unfold c. f_equal.
    unfold constant_rank in Hconst. rewrite forallb_forall in Hconst.
    apply Nat.eqb_eq, Hconst, in_seq. lia. }
  assert (Hcc : Forall (fun r => (c <= r <= c)%Z) row).
  { eapply Forall_impl; [|exact Hc]. intros r ->. lia. }
  destruct (@amin_amax_bounds c c row) as (A1 & A2 & A3);
    [lia | assumption |].
  set (n := Z.of_nat (nsamples fd)).
  unfold band_depth_row, modified_band_depth_row.
  assert (Hm : np.sumZ (match_row n row)
               = (Z.of_nat (grid_size fd) * ((n - c) * (c - 1)))%Z).
  { rewrite <- Hrow. unfold match_row.
    rewrite <- (length_map (fun r => ((n - r) * (r - 1))%Z) row).
    apply sumZ_constant. rewrite Forall_map.
    eapply Forall_impl; [|exact Hc]. intros r ->. reflexivity. }
  rewrite Hm.
  replace ((np.amin row - 1) * (n - np.amax row))%Z
    with ((n - c) * (c - 1))%Z by nia.
  assert (HPq : (0 < inject_Z (Z.of_nat (grid_size fd)))%Q).
  { change 0%Q with (inject_Z 0). rewrite <- Zlt_Qlt. lia. }
  assert (Ediv : (inject_Z (Z.of_nat (grid_size fd) * ((n - c) * (c - 1)))
                  / inject_Z (Z.of_nat (grid_size fd))
                  == inject_Z ((n - c) * (c - 1)))%Q).
  { rewrite inject_Z_mult. field. lra. }
  now rewrite Ediv.
Qed.

Lemma band_depths_agree_without_crossing_witness :
  grid_wf reference_grid = true /\ 2 <= nsamples reference_grid
  /\ ndim_image reference_grid = 1 /\ 1 < nsamples reference_grid
  /\ constant_rank reference_grid 1 = true
  /\ exists bd mbd,
       band_depth reference_grid false = Ok (Depth bd)
       /\ modified_band_depth reference_grid false = Ok (Depth mbd)
       /\ (nth 1 bd 0 == nth 1 mbd 0)%Q.
Proof.
  split; [reflexivity|]. split; [vm_compute; lia|]. split; [reflexivity|].
  split; [vm_compute; lia|]. split; [reflexivity|].
  apply (@band_depths_agree_without_crossing reference_grid 1);
    [reflexivity | vm_compute; lia | reflexivity | vm_compute; lia
     | reflexivity].
Defined.
